(** * DeliveryGenie: the order priority calculator

    A shallow embedding of [app/api/orders/calculate-priority/route.ts] (the
    class [OrderPriorityCalculator] and the [POST] handler) and of the copy of
    the calculator in [app/page.tsx], with the properties the specification
    states about them.

    Conventions of the embedding:
    - JavaScript numbers are IEEE 754 binary64 values; they are Rocq's
      primitive [float]s, so every product, sum, quotient and comparison below
      is the one the program performs, rounding included.
    - An object literal read as a table ([tempRequirements],
      [customerPriorityScores]) is the list of its own properties; a read of a
      key it does not own falls through to [Object.prototype], as it does in
      JavaScript.
    - A timestamp string enters the calculator only through
      [new Date(s).getTime()]; an order carries what the string denotes (a
      time value of its own, a local time, or no date), and the host's time
      zone turns a local time into a time value.
    - A call returns a value or throws ([Completion]).
    - What the program reaches besides its arguments is its [Host]: the
      number of arguments the engine accepts in one call, the time zone and
      the clock. *)

From Stdlib Require Import ZArith List String Bool Lia Floats.
From Stdlib Require Import Permutation Sorted.
From Stdlib Require Uint63.
Import ListNotations.

Set Warnings "-inexact-float".

Local Open Scope string_scope.
Local Open Scope float_scope.

(** ** JavaScript numbers and the [Math] functions the calculator calls *)

Module JS.

(** The float of a natural number or of a non-negative integer below [2^63]
    (array lengths, integer literals). *)
Definition of_Z (n : Z) : float := PrimFloat.of_uint63 (Uint63.of_Z n).
Definition of_nat (n : nat) : float := of_Z (Z.of_nat n).

(** [Math.round]: the nearest integer, a tie going towards [+Infinity]; NaN,
    the infinities and the integers are returned as they are, and a result
    that rounds to zero keeps the sign of the argument. The integer is
    computed exactly, on the mantissa and exponent of the argument. *)
Definition Math_round (x : float) : float :=
  match Prim2SF x with
  | S754_finite s m e =>
      if (0 <=? e)%Z then x
      else
        let k := Z.opp e in
        let n := Z.div (2 * (if s then Z.neg m else Z.pos m) + 2 ^ k) (2 ^ (k + 1)) in
        if (n =? 0)%Z then (if s then neg_zero else zero)
        else if (n <? 0)%Z then - of_Z (Z.opp n) else of_Z n
  | _ => x
  end.

Definition is_pos_zero (x : float) : bool := is_zero x && negb (get_sign x).
Definition is_neg_zero (x : float) : bool := is_zero x && get_sign x.

(** [Math.max] on the arguments [l]: NaN when an argument is NaN; otherwise
    the scan of ECMA-262 from [-Infinity], in which [+0] is larger than [-0].
    With no argument the result is [-Infinity]. This is the function once it
    is called; whether the engine accepts the call [Math.max(...array)] is
    [spread], below. *)
Definition Math_max (l : list float) : float :=
  if existsb is_nan l then nan
  else
    fold_left
      (fun highest number =>
         if is_pos_zero number && is_neg_zero highest then number
         else if highest <? number then number else highest)
      l neg_infinity.

(** [Math.min] on the arguments [l]: the dual scan from [+Infinity]. *)
Definition Math_min (l : list float) : float :=
  if existsb is_nan l then nan
  else
    fold_left
      (fun lowest number =>
         if is_neg_zero number && is_pos_zero lowest then number
         else if number <? lowest then number else lowest)
      l infinity.

(** What a property read or an expression can evaluate to here: a number,
    an object that is not a number (a function or a plain object), or
    [undefined]. *)
Inductive Value : Type :=
| Num (x : float)
| Obj
| Undefined.

(** Truthiness of a number: every number but [0], [-0] and NaN. *)
Definition truthy (x : float) : bool := negb (is_zero x) && negb (is_nan x).

(** [v || d] with a number for [d]. *)
Definition or_default (v : Value) (d : float) : Value :=
  match v with
  | Num x => if truthy x then Num x else Num d
  | Obj => Obj
  | Undefined => Num d
  end.

(** [ToNumber]: a function or a plain object converts to NaN through its
    string form, and so does [undefined]. *)
Definition ToNumber (v : Value) : float :=
  match v with
  | Num x => x
  | Obj | Undefined => nan
  end.

(** [v === y] for a number [y]. *)
Definition strict_eq (v : Value) (y : float) : bool :=
  match v with
  | Num x => x =? y
  | Obj | Undefined => false
  end.

(** The property names every object literal inherits from
    [Object.prototype]. Reading one of them from an object literal that has
    no such key of its own yields the inherited function (or, for
    [__proto__], the prototype object), not [undefined]. *)
Definition ObjectPrototype : list string :=
  [ "constructor"; "hasOwnProperty"; "isPrototypeOf"; "propertyIsEnumerable";
    "toLocaleString"; "toString"; "valueOf"; "__proto__";
    "__defineGetter__"; "__defineSetter__"; "__lookupGetter__"; "__lookupSetter__" ].

Definition inherited (key : string) : bool :=
  existsb (String.eqb key) ObjectPrototype.

(** The outcome of [obj[key]] on an object literal with the own properties
    [obj]. *)
Inductive Slot (A : Type) : Type :=
| Own (a : A)
| Inherited
| Missing.
Arguments Own {A} a.
Arguments Inherited {A}.
Arguments Missing {A}.

Definition get {A : Type} (obj : list (string * A)) (key : string) : Slot A :=
  match find (fun kv => String.eqb (fst kv) key) obj with
  | Some kv => Own (snd kv)
  | None => if inherited key then Inherited else Missing
  end.

(** A call either returns or throws. *)
Inductive Completion (A : Type) : Type :=
| Return (a : A)
| Throw (error : string).
Arguments Return {A} a.
Arguments Throw {A} error.

Definition bind {A B : Type} (c : Completion A) (k : A -> Completion B) : Completion B :=
  match c with
  | Return a => k a
  | Throw e => Throw e
  end.

(** [l.map(f)] for an [f] that may throw: the first throw ends the call. *)
Fixpoint mapM {A B : Type} (f : A -> Completion B) (l : list A) : Completion (list B) :=
  match l with
  | [] => Return []
  | a :: l' => bind (f a) (fun b => bind (mapM f l') (fun bs => Return (b :: bs)))
  end.

(** [Array.prototype.sort(comparefn)]. ECMA-262 leaves the sequence of
    comparator calls to the implementation and fixes the outcome for a
    consistent comparator: the sorted permutation that keeps elements the
    comparator calls equal in their original order (the sort is stable).
    [Array_sort] computes it by stable insertion: [x] moves behind [y] only
    when [comparefn x y > 0]; a NaN from the comparator counts as [+0]. For a
    comparator that is not consistent (here: when a score is NaN) the order
    is implementation-defined, and the only thing every engine guarantees is
    a permutation of the array; [Array_sort] then gives one such permutation,
    which need not be the one of a given engine. *)
Fixpoint insert {A : Type} (comparefn : A -> A -> float) (x : A) (sorted : list A) : list A :=
  match sorted with
  | [] => [x]
  | y :: rest =>
      if 0 <? comparefn x y then y :: insert comparefn x rest
      else x :: y :: rest
  end.

Definition Array_sort {A : Type} (comparefn : A -> A -> float) (l : list A) : list A :=
  fold_right (insert comparefn) [] l.

(** ** The host

    What the program can reach besides its arguments: the number of
    arguments the engine accepts in one call (it depends on the engine and
    on its stack; no engine refuses a single argument), the time zone, as the
    function that gives the time value of a local time (the abstract
    operation [UTC] of ECMA-262), and the clock that [Date.now()] and
    [new Date()] read. *)
Class Host : Type := {
  maxArguments : positive;
  UTC : float -> float;
  clock : float
}.

(** The engine accepts a call with [count] arguments. *)
Definition accepts {host : Host} (count : nat) : bool :=
  (N.of_nat count <=? N.pos maxArguments)%N.

(** The spread of a call [f(...args)]: every element of [args] becomes an
    argument, and the engine throws a RangeError when there are more than it
    accepts. *)
Definition spread {host : Host} {A : Type} (args : list A) : Completion unit :=
  if accepts (List.length args) then Return tt
  else Throw "RangeError: Maximum call stack size exceeded".

(** What a timestamp of an order denotes, as [new Date(value)] reads it
    (ECMA-262, Date.parse): a time value of its own (a date alone, which is
    UTC, or a date and time with [Z] or an offset), a local time (a date and
    time without offset), or no date at all. *)
Inductive DateString : Type :=
| Instant (t : float)
| LocalTime (t : float)
| NotADate.

(** [new Date(s).getTime()] *)
Definition getTime {host : Host} (s : DateString) : float :=
  match s with
  | Instant t => t
  | LocalTime t => UTC t
  | NotADate => nan
  end.

End JS.

Import JS.

(** ** The data model of [route.ts] *)

Module Product.
Record t : Type := mk {
  product_id : string;
  name : string;
  category : string;
  price : float;
  quantity : float;
  expiration_hours : float
}.
End Product.

(** The two timestamps of an order are strings that the calculator only
    reads through [new Date(s).getTime()]; the record keeps what each string
    denotes. The members have the types of the interface [Order]: JSON that
    [POST] cannot read as such an order is [Route.NotAnOrder], below. *)
Module Order.
Record t : Type := mk {
  order_id : string;
  customer_name : string;
  customer_address : string;
  customer_priority : string;
  order_time : DateString;
  delivery_window_end : DateString;
  products : list Product.t
}.
End Order.

Module TempRequirement.
Record t : Type := mk { score : float; label : string }.
End TempRequirement.

Module Breakdown.
Record t : Type := mk {
  temperature : float;
  expiration : float;
  customer_priority : float;
  value : float;
  delivery_window : float;
  fragility : float
}.
End Breakdown.

(** The object [calculateOrderPriority] returns. [highest_temp_requirement] is
    [None] where the JavaScript value is [undefined];
    [suggested_delivery_order] is absent until [POST] adds it. *)
Module ScoredOrder.
Record t : Type := mk {
  order_id : string;
  priority_score : float;
  priority_class : string;
  breakdown : Breakdown.t;
  highest_temp_requirement : option string;
  total_value : float;
  earliest_expiration : float;
  minutes_until_deadline : float;
  suggested_delivery_order : option nat
}.
End ScoredOrder.

(** ** [class OrderPriorityCalculator] of [route.ts] *)

Module OrderPriorityCalculator.

Record t : Type := mk {
  tempRequirements : list (string * TempRequirement.t);
  customerPriorityScores : list (string * float)
}.

(** The field initialisers, that is [new OrderPriorityCalculator()]. *)
Definition new : t := {|
  tempRequirements :=
    [ ("hot_food", TempRequirement.mk 100 "ร้อน 60-70°C");
      ("frozen", TempRequirement.mk 90 "แช่แข็ง -18°C");
      ("chilled", TempRequirement.mk 75 "เย็น 0-4°C");
      ("beverage", TempRequirement.mk 40 "เย็น 15-20°C");
      ("snack", TempRequirement.mk 20 "ปกติ");
      ("daily_goods", TempRequirement.mk 20 "ปกติ");
      ("medicine", TempRequirement.mk 60 "ปกติ (ยา)") ];
  customerPriorityScores :=
    [ ("urgent", 100); ("high", 75); ("standard", 50); ("economy", 25) ]
|}.

Definition scoreExpiration (hours : float) : float :=
  if hours <=? 3 then 100
  else if hours <=? 8 then 90
  else if hours <=? 24 then 70
  else if hours <=? 168 then 50
  else 30.

Definition scoreValue (value : float) : float :=
  if 500 <=? value then 100
  else if 200 <=? value then 80
  else if 100 <=? value then 60
  else if 50 <=? value then 40
  else 20.

Definition scoreDeliveryWindow (minutes : float) : float :=
  if minutes <=? 15 then 100
  else if minutes <=? 30 then 90
  else if minutes <=? 60 then 70
  else if minutes <=? 120 then 50
  else 30.

Definition classifyPriority (score : float) : string :=
  if 75 <=? score then "critical"
  else if 60 <=? score then "high"
  else if 40 <=? score then "medium"
  else "low".

Section Method.
Context {host : Host}.
Variable this : t.
Variable order : Order.t.

(** [this.tempRequirements[category]?.score] *)
Definition tempScoreOf (category : string) : Value :=
  match get (tempRequirements this) category with
  | Own r => Num (TempRequirement.score r)
  | Inherited | Missing => Undefined
  end.

(** 1. Temperature score. [maxTempScore] is the value of
    [Math.max(...tempScores)] when the engine accepts the call. *)
Definition tempScores : list float :=
  map (fun p => ToNumber (or_default (tempScoreOf (Product.category p)) 20))
      (Order.products order).
Definition maxTempScore : float := Math_max tempScores.
Definition highestTempProduct : option Product.t :=
  find (fun p => strict_eq (tempScoreOf (Product.category p)) maxTempScore)
       (Order.products order).
(** [highestTempProduct?.category || 'snack']: the empty string is falsy. *)
Definition tempRequirementKey : string :=
  match highestTempProduct with
  | Some p => if String.eqb (Product.category p) "" then "snack" else Product.category p
  | None => "snack"
  end.
Definition tempRequirement : Slot TempRequirement.t :=
  get (tempRequirements this) tempRequirementKey.

(** 2. Expiration score. [minExpiration] is the value of
    [Math.min(...expirations)] when the engine accepts the call. *)
Definition expirations : list float :=
  map Product.expiration_hours (Order.products order).
Definition minExpiration : float := Math_min expirations.
Definition expirationScore : float := scoreExpiration minExpiration.

(** 3. Customer priority *)
Definition customerScore : Value :=
  or_default
    (match get (customerPriorityScores this) (Order.customer_priority order) with
     | Own n => Num n
     | Inherited => Obj
     | Missing => Undefined
     end) 50.

(** 4. Total value *)
Definition totalValue : float :=
  fold_left (fun sum p => sum + Product.price p * Product.quantity p)
            (Order.products order) 0.
Definition valueScore : float := scoreValue totalValue.

(** 5. Delivery window. [now] is the order's own [order_time]; the two
    dates enter through [getTime]. *)
Definition now : float := getTime (Order.order_time order).
Definition deliveryEnd : float := getTime (Order.delivery_window_end order).
Definition minutesRemaining : float := (deliveryEnd - now) / (1000 * 60).
Definition windowScore : float := scoreDeliveryWindow minutesRemaining.

(** 6. Fragility *)
Definition hasMedicine : bool :=
  existsb (fun p => String.eqb (Product.category p) "medicine") (Order.products order).
Definition fragilityScore : float := if hasMedicine then 100 else 30.

Definition breakdown : Breakdown.t := {|
  Breakdown.temperature := maxTempScore * 0.30;
  Breakdown.expiration := expirationScore * 0.25;
  Breakdown.customer_priority := ToNumber customerScore * 0.15;
  Breakdown.value := valueScore * 0.10;
  Breakdown.delivery_window := windowScore * 0.15;
  Breakdown.fragility := fragilityScore * 0.05
|}.

(** [Object.values(breakdown).reduce((sum, val) => sum + val, 0)] *)
Definition totalScore : float :=
  fold_left (fun sum val => sum + val)
    [ Breakdown.temperature breakdown; Breakdown.expiration breakdown;
      Breakdown.customer_priority breakdown; Breakdown.value breakdown;
      Breakdown.delivery_window breakdown; Breakdown.fragility breakdown ] 0.
Definition priorityClass : string := classifyPriority totalScore.

(** The method. The two calls that spread an array, [Math.max(...tempScores)]
    and [Math.min(...expirations)], throw when the engine does not accept as
    many arguments as the order has products. Reading [.label] throws when
    [tempRequirement] is [undefined]; on an inherited member it reads
    [undefined]. *)
Definition calculateOrderPriority : Completion ScoredOrder.t :=
  bind (spread tempScores) (fun _ =>
  bind (spread expirations) (fun _ =>
  bind
    (match tempRequirement with
     | Own r => Return (Some (TempRequirement.label r))
     | Inherited => Return None
     | Missing => Throw "TypeError: Cannot read properties of undefined (reading 'label')"
     end)
    (fun label =>
       Return {|
         ScoredOrder.order_id := Order.order_id order;
         ScoredOrder.priority_score := Math_round (totalScore * 100) / 100;
         ScoredOrder.priority_class := priorityClass;
         ScoredOrder.breakdown := breakdown;
         ScoredOrder.highest_temp_requirement := label;
         ScoredOrder.total_value := totalValue;
         ScoredOrder.earliest_expiration := minExpiration;
         ScoredOrder.minutes_until_deadline := Math_round minutesRemaining;
         ScoredOrder.suggested_delivery_order := None
       |}))).
End Method.

End OrderPriorityCalculator.

Import OrderPriorityCalculator.

(** ** The [POST] handler of [route.ts] *)

Module Route.

(** An element of the array [orders], as the calculator reads it: a value
    with the members of an [Order], or a value on which reading the order
    throws a TypeError, such as [null], a value whose [products] member is no
    array (it is missing, or a number, a string or an object), or one whose
    [products] hold [null]. Other JSON whose members do not have the types
    that the interface [Order] declares is outside the model. *)
Inductive Element : Type :=
| AnOrder (order : Order.t)
| NotAnOrder.

(** The [orders] member of the request body: absent (or another falsy
    value), a value that is no array, or an array. *)
Inductive OrdersField : Type :=
| NoOrders
| NotAnArray
| OrdersArray (l : list Element).

Record Body : Type := { orders : OrdersField }.

(** The value [await request.json()] resolves to: [null], which cannot be
    destructured, or another value, seen through its [orders] member. *)
Inductive Json : Type :=
| Null
| NotNull (body : Body).

Record Summary : Type := {
  critical : nat;
  high : nat;
  medium : nat;
  low : nat;
  avg_score : float
}.

Inductive Payload : Type :=
| Failure (error : string)
| Success (success : bool) (total_orders : nat)
          (orders : list ScoredOrder.t) (summary : Summary).

(** [NextResponse.json(payload, { status })], the status being 200 when none
    is given. *)
Record Response : Type := json { payload : Payload; status : Z }.

Definition set_suggested_delivery_order (result : ScoredOrder.t) (n : nat) : ScoredOrder.t :=
  {| ScoredOrder.order_id := ScoredOrder.order_id result;
     ScoredOrder.priority_score := ScoredOrder.priority_score result;
     ScoredOrder.priority_class := ScoredOrder.priority_class result;
     ScoredOrder.breakdown := ScoredOrder.breakdown result;
     ScoredOrder.highest_temp_requirement := ScoredOrder.highest_temp_requirement result;
     ScoredOrder.total_value := ScoredOrder.total_value result;
     ScoredOrder.earliest_expiration := ScoredOrder.earliest_expiration result;
     ScoredOrder.minutes_until_deadline := ScoredOrder.minutes_until_deadline result;
     ScoredOrder.suggested_delivery_order := Some n |}.

(** [sorted.forEach((result, index) => result.suggested_delivery_order = index + 1)],
    from the position [index] on. *)
Fixpoint forEach_rank (index : nat) (sorted : list ScoredOrder.t) : list ScoredOrder.t :=
  match sorted with
  | [] => []
  | result :: rest =>
      set_suggested_delivery_order result (index + 1) :: forEach_rank (S index) rest
  end.

Definition by_priority_score (a b : ScoredOrder.t) : float :=
  ScoredOrder.priority_score b - ScoredOrder.priority_score a.

Definition count_class (class : string) (sorted : list ScoredOrder.t) : nat :=
  List.length (filter (fun o => String.eqb (ScoredOrder.priority_class o) class) sorted).

(** [calculator.calculateOrderPriority(order)] on an element of the array. *)
Definition calculate {host : Host} (calculator : OrderPriorityCalculator.t)
    (element : Element) : Completion ScoredOrder.t :=
  match element with
  | AnOrder order => calculateOrderPriority calculator order
  | NotAnOrder => Throw "TypeError: Cannot read properties of undefined"
  end.

(** The handler, on the outcome of [await request.json()]. Whatever is
    thrown inside the [try] block becomes the 500 response: the failure to
    read the body, the TypeError of destructuring [null], and what the
    calculator throws. *)
Definition POST {host : Host} (request_json : Completion Json) : Response :=
  match request_json with
  | Throw _ => json (Failure "Internal server error") 500
  | Return Null => json (Failure "Internal server error") 500
  | Return (NotNull body) =>
      match orders body with
      | NoOrders | NotAnArray =>
          json (Failure "Invalid request: orders array required") 400
      | OrdersArray orders =>
          let calculator := OrderPriorityCalculator.new in
          match mapM (calculate calculator) orders with
          | Throw _ => json (Failure "Internal server error") 500
          | Return results =>
              let sorted := forEach_rank 0 (Array_sort by_priority_score results) in
              json
                (Success true (List.length sorted) sorted
                   {| critical := count_class "critical" sorted;
                      high := count_class "high" sorted;
                      medium := count_class "medium" sorted;
                      low := count_class "low" sorted;
                      avg_score :=
                        fold_left (fun sum o => sum + ScoredOrder.priority_score o) sorted 0
                        / JS.of_nat (List.length sorted) |})
                200
          end
      end
  end.

End Route.

(** * The calculator of [page.tsx]

    The dashboard carries its own copy of the class. Its types close the two
    enumerations: a category is one of seven literals, a customer priority one
    of four. The object it returns is the order itself with five computed
    fields written over it.

    The class is private to the module, and the component applies it to
    [mockOrders] alone: five orders of two products each, whose timestamps
    are written by [toISOString]. The two calls that spread an array are
    therefore within what every engine accepts, and are given by [Math_max]
    and [Math_min] themselves; and each timestamp is a time value of its own,
    which the order carries. *)

Module Page.

Inductive Category : Type :=
| hot_food | frozen | chilled | beverage | snack | daily_goods | medicine.

Inductive CustomerPriority : Type :=
| urgent | high | standard | economy.

(** The string each literal type member stands for. *)
Definition category_key (c : Category) : string :=
  match c with
  | hot_food => "hot_food"
  | frozen => "frozen"
  | chilled => "chilled"
  | beverage => "beverage"
  | snack => "snack"
  | daily_goods => "daily_goods"
  | medicine => "medicine"
  end.

Definition priority_key (c : CustomerPriority) : string :=
  match c with
  | urgent => "urgent"
  | high => "high"
  | standard => "standard"
  | economy => "economy"
  end.

Record Product : Type := {
  product_id : string;
  name : string;
  category : Category;
  price : float;
  quantity : float;
  expiration_hours : float
}.

Record Order : Type := {
  order_id : string;
  customer_name : string;
  customer_address : string;
  delivery_latitude : float;
  delivery_longitude : float;
  customer_priority : CustomerPriority;
  order_time : float;
  delivery_window_end : float;
  products : list Product;
  priority_score : option float;
  priority_class : option string;
  suggested_delivery_order : option nat;
  highest_temp_requirement : option string;
  total_value : option float;
  earliest_expiration : option float
}.

Record TempRequirement : Type := {
  temp : string;
  score : float;
  label : string;
  icon : string;
  color : string
}.

Record OrderPriorityCalculator : Type := {
  tempRequirements : list (string * TempRequirement);
  customerPriorityScores : list (string * float)
}.

Definition new : OrderPriorityCalculator := {|
  tempRequirements :=
    [ ("hot_food", Build_TempRequirement "hot" 100 "ร้อน 60-70°C" "🔥" "red");
      ("frozen", Build_TempRequirement "frozen" 90 "แช่แข็ง -18°C" "❄️" "blue");
      ("chilled", Build_TempRequirement "chilled" 75 "เย็น 0-4°C" "🧊" "cyan");
      ("beverage", Build_TempRequirement "cool" 40 "เย็น 15-20°C" "🥤" "green");
      ("snack", Build_TempRequirement "ambient" 20 "ปกติ" "🍪" "gray");
      ("daily_goods", Build_TempRequirement "ambient" 20 "ปกติ" "📦" "gray");
      ("medicine", Build_TempRequirement "ambient" 60 "ปกติ (ยา)" "💊" "purple") ];
  customerPriorityScores :=
    [ ("urgent", 100); ("high", 75); ("standard", 50); ("economy", 25) ]
|}.

Definition scoreExpiration (hours : float) : float :=
  if hours <=? 3 then 100
  else if hours <=? 8 then 90
  else if hours <=? 24 then 70
  else if hours <=? 168 then 50
  else 30.

Definition scoreValue (value : float) : float :=
  if 500 <=? value then 100
  else if 200 <=? value then 80
  else if 100 <=? value then 60
  else if 50 <=? value then 40
  else 20.

Definition scoreDeliveryWindow (minutes : float) : float :=
  if minutes <=? 15 then 100
  else if minutes <=? 30 then 90
  else if minutes <=? 60 then 70
  else if minutes <=? 120 then 50
  else 30.

Definition classifyPriority (score : float) : string :=
  if 75 <=? score then "critical"
  else if 60 <=? score then "high"
  else if 40 <=? score then "medium"
  else "low".

Section Method.

Variable this : OrderPriorityCalculator.
Variable order : Order.

Definition tempScoreOf (c : Category) : Value :=
  match get (tempRequirements this) (category_key c) with
  | Own r => Num (score r)
  | Inherited | Missing => Undefined
  end.

Definition tempScores : list float :=
  map (fun p => ToNumber (or_default (tempScoreOf (category p)) 20)) (products order).
Definition maxTempScore : float := Math_max tempScores.
Definition highestTempProduct : option Product :=
  find (fun p => strict_eq (tempScoreOf (category p)) maxTempScore) (products order).
Definition tempRequirementKey : string :=
  match highestTempProduct with
  | Some p =>
      if String.eqb (category_key (category p)) "" then "snack"
      else category_key (category p)
  | None => "snack"
  end.
Definition tempRequirement : Slot TempRequirement :=
  get (tempRequirements this) tempRequirementKey.

Definition expirations : list float := map expiration_hours (products order).
Definition minExpiration : float := Math_min expirations.
Definition expirationScore : float := scoreExpiration minExpiration.

Definition customerScore : Value :=
  or_default
    (match get (customerPriorityScores this) (priority_key (customer_priority order)) with
     | Own n => Num n
     | Inherited => Obj
     | Missing => Undefined
     end) 50.

Definition totalValue : float :=
  fold_left (fun sum p => sum + price p * quantity p) (products order) 0.
Definition valueScore : float := scoreValue totalValue.

Definition now : float := order_time order.
Definition deliveryEnd : float := delivery_window_end order.
Definition minutesRemaining : float := (deliveryEnd - now) / (1000 * 60).
Definition windowScore : float := scoreDeliveryWindow minutesRemaining.

Definition hasMedicine : bool :=
  existsb (fun p => String.eqb (category_key (category p)) "medicine") (products order).
Definition fragilityScore : float := if hasMedicine then 100 else 30.

Definition totalScore : float :=
  maxTempScore * 0.30
  + expirationScore * 0.25
  + ToNumber customerScore * 0.15
  + valueScore * 0.10
  + windowScore * 0.15
  + fragilityScore * 0.05.

Definition priorityClass : string := classifyPriority totalScore.

(** [{ ...order, priority_score: ..., ... }] *)
Definition calculateOrderPriority : Completion Order :=
  bind
    (match tempRequirement with
     | Own r => Return (Some (label r))
     | Inherited => Return None
     | Missing => Throw "TypeError: Cannot read properties of undefined (reading 'label')"
     end)
    (fun label =>
       Return {|
         order_id := order_id order;
         customer_name := customer_name order;
         customer_address := customer_address order;
         delivery_latitude := delivery_latitude order;
         delivery_longitude := delivery_longitude order;
         customer_priority := customer_priority order;
         order_time := order_time order;
         delivery_window_end := delivery_window_end order;
         products := products order;
         priority_score := Some (Math_round (totalScore * 100) / 100);
         priority_class := Some priorityClass;
         suggested_delivery_order := suggested_delivery_order order;
         highest_temp_requirement := label;
         total_value := Some totalValue;
         earliest_expiration := Some minExpiration
       |}).

End Method.

(** [a.priority_score || 0] *)
Definition score_or_zero (o : Order) : float :=
  ToNumber (or_default (match priority_score o with Some x => Num x | None => Undefined end) 0).

Definition by_priority_score (a b : Order) : float := score_or_zero b - score_or_zero a.

Definition set_suggested_delivery_order (o : Order) (n : nat) : Order :=
  {| order_id := order_id o;
     customer_name := customer_name o;
     customer_address := customer_address o;
     delivery_latitude := delivery_latitude o;
     delivery_longitude := delivery_longitude o;
     customer_priority := customer_priority o;
     order_time := order_time o;
     delivery_window_end := delivery_window_end o;
     products := products o;
     priority_score := priority_score o;
     priority_class := priority_class o;
     suggested_delivery_order := Some n;
     highest_temp_requirement := highest_temp_requirement o;
     total_value := total_value o;
     earliest_expiration := earliest_expiration o |}.

Fixpoint forEach_rank (index : nat) (sorted : list Order) : list Order :=
  match sorted with
  | [] => []
  | o :: rest => set_suggested_delivery_order o (index + 1) :: forEach_rank (S index) rest
  end.


End Page.

(** * Definitions used to state and prove the properties *)

(** ** The values the component scores take *)

Module Levels.

Definition temperature : list float := [100; 90; 75; 60; 40; 20].
Definition expiration : list float := [100; 90; 70; 50; 30].
Definition customer : list float := [100; 75; 50; 25].
Definition value : list float := [100; 80; 60; 40; 20].
Definition window : list float := [100; 90; 70; 50; 30].
Definition fragility : list float := [100; 30].

End Levels.

(** ** The weighted sum on every combination of levels *)

Module Table.

(** The sum [calculateOrderPriority] forms from the six component scores. *)
Definition weighted (t e c v w f : float) : float :=
  fold_left (fun sum val => sum + val)
    [ t * 0.30; e * 0.25; c * 0.15; v * 0.10; w * 0.15; f * 0.05 ] 0.

Definition rounded (x : float) : float := Math_round (x * 100) / 100.

(** The same sum in hundredths, on integers. *)
Definition hundredths (t e c v w f : Z) : Z :=
  (30 * t + 25 * e + 15 * c + 10 * v + 15 * w + 5 * f)%Z.

Definition temperature : list Z := [100; 90; 75; 60; 40; 20]%Z.
Definition expiration : list Z := [100; 90; 70; 50; 30]%Z.
Definition customer : list Z := [100; 75; 50; 25]%Z.
Definition value : list Z := [100; 80; 60; 40; 20]%Z.
Definition window : list Z := [100; 90; 70; 50; 30]%Z.
Definition fragility : list Z := [100; 30]%Z.

Definition forall6 (lt le lc lv lw lf : list Z) (P : Z -> Z -> Z -> Z -> Z -> Z -> bool) : bool :=
  forallb (fun t => forallb (fun e => forallb (fun c => forallb (fun v =>
  forallb (fun w => forallb (fun f => P t e c v w f) lf) lw) lv) lc) le) lt.

(** On a combination of levels the sum of floats is the correctly rounded
    quotient of the integer sum by 100, it lies between 0 and 100, and
    rounding it to two decimals leaves it as it is. *)
Definition exact_sum (t e c v w f : Z) : bool :=
  let x := weighted (JS.of_Z t) (JS.of_Z e) (JS.of_Z c) (JS.of_Z v) (JS.of_Z w) (JS.of_Z f) in
  let h := hundredths t e c v w f in
  PrimFloat.Leibniz.eqb x (JS.of_Z h / 100)
  && PrimFloat.Leibniz.eqb (rounded x) x
  && (0 <=? x) && (x <=? 100)
  && (2525 <=? h)%Z && (h <=? 10000)%Z && (h mod 25 =? 0)%Z.

(** With no product the temperature score is [-Infinity], and so is the sum,
    rounded or not. *)
Definition bottom (_ e c v w f : Z) : bool :=
  let x := weighted neg_infinity (JS.of_Z e) (JS.of_Z c) (JS.of_Z v) (JS.of_Z w) (JS.of_Z f) in
  PrimFloat.Leibniz.eqb x neg_infinity && PrimFloat.Leibniz.eqb (rounded x) neg_infinity.

(** A customer score that is NaN makes the sum NaN, rounded or not. *)
Definition poisoned (t e _ v w f : Z) : bool :=
  let x := weighted (if (t =? 0)%Z then neg_infinity else JS.of_Z t)
                    (JS.of_Z e) nan (JS.of_Z v) (JS.of_Z w) (JS.of_Z f) in
  PrimFloat.Leibniz.eqb x nan && PrimFloat.Leibniz.eqb (rounded x) nan.

End Table.

(** ** The scores that can occur

    A priority score is [-Infinity] or a number of hundredths between 2525 and
    10000 that is a multiple of 25. [Keys.table] pairs each such score with an
    integer key; [Keys.row_ok] checks that the subtraction and the comparisons
    of floats agree with the order of the keys. *)

Module Keys.

(** The integer part of a number (0 for NaN and the infinities). *)
Definition to_Z (x : float) : Z :=
  match Prim2SF x with
  | S754_finite s m e =>
      let n := if (0 <=? e)%Z then (Z.pos m * 2 ^ e)%Z else (Z.pos m / 2 ^ (- e))%Z in
      if s then (- n)%Z else n
  | _ => 0%Z
  end.

Definition of_key (h : Z) : float :=
  if (h <? 0)%Z then neg_infinity else JS.of_Z h / 100.

Definition key_of (s : float) : Z :=
  if s <? 0 then (-1)%Z else to_Z (Math_round (s * 100)).

Definition all : list Z :=
  (-1)%Z :: map (fun n => (25 * Z.of_nat n)%Z) (seq 101 300).

Definition table : list (Z * float) := map (fun h => (h, of_key h)) all.

Definition pair_ok (a b : Z * float) : bool :=
  Bool.eqb (0 <? snd b - snd a) (fst a <? fst b)%Z
  && Bool.eqb (snd b <=? snd a) (fst b <=? fst a)%Z
  && Bool.eqb (snd a =? snd b) (fst a =? fst b)%Z.

Definition row_ok (a : Z * float) : bool :=
  (key_of (snd a) =? fst a)%Z && truthy (snd a) && forallb (pair_ok a) table.

End Keys.

(** ** Sorting by a score *)

(** The sign test [Array_sort] performs on [comparefn x y] is the comparison
    of the keys of [x] and [y]. *)
Definition follows_key {A : Type} (comparefn : A -> A -> float) (key : A -> Z) (x y : A) : Prop :=
  (0 <? comparefn x y) = (key x <? key y)%Z.

Definition descending {A : Type} (key : A -> Z) (x y : A) : Prop := (key y <= key x)%Z.

(** The comparator of both callers: the score of [b] minus the score of [a]. *)
Definition by_score {A : Type} (sc : A -> float) (a b : A) : float := sc b - sc a.

Definition score_key {A : Type} (sc : A -> float) (r : A) : Z := Keys.key_of (sc r).

Definition in_keys {A : Type} (sc : A -> float) (r : A) : Prop :=
  exists h, In h Keys.all /\ sc r = Keys.of_key h.

(** [b] may follow [a] in a non-increasing sequence of scores. *)
Definition score_non_increasing {A : Type} (sc : A -> float) (a b : A) : Prop :=
  (sc b <=? sc a) = true.

Definition non_increasing : ScoredOrder.t -> ScoredOrder.t -> Prop :=
  score_non_increasing ScoredOrder.priority_score.

(** No customer priority of the batch names a member of [Object.prototype]. *)
Definition plain (orders : list Order.t) : Prop :=
  Forall (fun o => inherited (Order.customer_priority o) = false) orders.

(** An element of the array that [calculateOrderPriority] scores without a
    throw: an order that fits the engine. *)
Definition scorable {host : Host} (element : Route.Element) : bool :=
  match element with
  | Route.AnOrder order => accepts (List.length (Order.products order))
  | Route.NotAnOrder => false
  end.

(** ** Categories and inputs *)

(** The seven categories of the table. *)
Definition recognized : list string := map fst (tempRequirements new).

(** The engine accepts the two spread calls of the order: it has no more
    products than the engine accepts arguments. *)
Definition fits {host : Host} (order : Order.t) : Prop :=
  accepts (List.length (Order.products order)) = true.

(** The two timestamps of the order have the same time values on two hosts:
    the hosts are in one time zone, or neither timestamp is a local time. *)
Definition same_times (host1 host2 : Host) (order : Order.t) : Prop :=
  getTime (host := host1) (Order.order_time order)
  = getTime (host := host2) (Order.order_time order) /\
  getTime (host := host1) (Order.delivery_window_end order)
  = getTime (host := host2) (Order.delivery_window_end order).

(** An order of [page.tsx] as [route.ts] receives it. *)
Definition toRouteProduct (p : Page.Product) : Product.t :=
  Product.mk (Page.product_id p) (Page.name p) (Page.category_key (Page.category p))
    (Page.price p) (Page.quantity p) (Page.expiration_hours p).

Definition toRoute (o : Page.Order) : Order.t :=
  Order.mk (Page.order_id o) (Page.customer_name o) (Page.customer_address o)
    (Page.priority_key (Page.customer_priority o))
    (Instant (Page.order_time o)) (Instant (Page.delivery_window_end o))
    (map toRouteProduct (Page.products o)).

(** An order of [page.tsx] that has not been scored. *)
Definition unscored (o : Page.Order) : Prop :=
  Page.priority_score o = None /\ Page.priority_class o = None /\
  Page.highest_temp_requirement o = None /\ Page.total_value o = None /\
  Page.earliest_expiration o = None.

(** ** Example hosts and orders *)

(** A server on UTC and one on Bangkok time (UTC+7, without daylight
    saving), with engines that accept different numbers of arguments and
    with clocks that differ. *)
Definition utc_host : Host :=
  {| maxArguments := 120000; UTC := fun t => t; clock := 1700000000000 |}.

Definition bangkok_host : Host :=
  {| maxArguments := 65535; UTC := fun t => t - 25200000; clock := 1700000450000 |}.

(** Placed at time 0, due 200 minutes later. *)
Definition late_order : Order.t :=
  Order.mk "ORD100" "customer" "address" "standard" (Instant 0) (Instant 12000000)
    [Product.mk "P100" "noodles" "snack" 25 1 4380].

Definition inherited_priority_order : Order.t :=
  Order.mk "ORD200" "customer" "address" "constructor" (Instant 0) (Instant 12000000)
    [Product.mk "P200" "noodles" "snack" 25 1 4380].

Definition urgent_order : Order.t :=
  Order.mk "ORD001" "customer" "address" "urgent" (Instant 1700000000000) (Instant 1700001500000)
    [Product.mk "P001" "rice box" "hot_food" 65 1 3].

Definition empty_inherited_order : Order.t :=
  Order.mk "ORD300" "customer" "address" "constructor" (Instant 0) (Instant 12000000) [].

Definition empty_order : Order.t :=
  Order.mk "ORD301" "customer" "address" "economy" (Instant 0) (Instant 12000000) [].

Definition medicine_order : Order.t :=
  Order.mk "ORD004" "customer" "address" "standard" (Instant 1700000000000) (Instant 1700012000000)
    [Product.mk "P007" "paracetamol" "medicine" 120 1 17520].

Definition medicine_order_relabelled : Order.t :=
  Order.mk "ORD004" "another customer" "another address" "standard"
    (Instant 1700000000000) (Instant 1700012000000)
    [Product.mk "P999" "aspirin" "medicine" 120 1 17520].

(** The order of the first scenario, placed 200 minutes before the end of
    its delivery window. *)
Definition early_hot_food_order : Order.t :=
  Order.mk "ORD101" "customer" "address" "urgent" (Instant 0) (Instant 12000000)
    [Product.mk "P001" "rice box" "hot_food" 65 1 3].


(** An order whose order time carries its offset and whose delivery window
    ends at a local time: 25 minutes later in Bangkok, 7 hours and 25 minutes
    later on UTC. *)
Definition zoned_order : Order.t :=
  Order.mk "ORD103" "customer" "address" "urgent"
    (Instant 1700000000000) (LocalTime 1700026700000)
    [Product.mk "P001" "rice box" "hot_food" 65 1 3].

(** An order with one product more than the engine accepts arguments, none
    of a recognized category. *)
Definition too_long_order {host : Host} : Order.t :=
  Order.mk "ORD104" "customer" "address" "standard" (Instant 0) (Instant 12000000)
    (repeat (Product.mk "P400" "bouquet" "flowers" 300 1 48) (S (Pos.to_nat maxArguments))).

(** A batch that holds an order scored NaN and one scored [-Infinity]. *)
Definition mixed_batch : list Order.t :=
  [medicine_order; inherited_priority_order; urgent_order; empty_order].

Definition unrecognized_order : Order.t :=
  Order.mk "ORD400" "customer" "address" "high" (Instant 0) (Instant 3000000)
    [Product.mk "P400" "bouquet" "flowers" 300 1 48;
     Product.mk "P401" "card" "toString" 20 2 8760].

(** * The rest of the dashboard of [page.tsx] *)

(** ** Two more operations on numbers *)

Module JSMath.

(** [Math.floor]: the largest integer not above the argument, computed
    exactly on its mantissa and exponent; NaN, the infinities, the zeros and
    the integers are returned as they are. *)
Definition Math_floor (x : float) : float :=
  match Prim2SF x with
  | S754_finite s m e =>
      if (0 <=? e)%Z then x
      else
        let n := Z.div (if s then Z.neg m else Z.pos m) (2 ^ (- e)) in
        if (n <? 0)%Z then - JS.of_Z (Z.opp n) else JS.of_Z n
  | _ => x
  end.

(** [n % d] (ECMA-262, Number::remainder): NaN when an operand is NaN, [n] is
    infinite or [d] is zero; [n] when [d] is infinite or [n] is zero;
    otherwise [n] minus [d] times the truncated quotient, a number that is
    always representable, with the sign of [n]. *)
Definition remainder (n d : float) : float :=
  match Prim2SF n, Prim2SF d with
  | S754_nan, _ | _, S754_nan => nan
  | S754_infinity _, _ => nan
  | _, S754_infinity _ => n
  | _, S754_zero _ => nan
  | S754_zero _, _ => n
  | S754_finite sn mn en, S754_finite _ md ed =>
      let e := Z.min en ed in
      let r := Z.modulo (Z.pos mn * 2 ^ (en - e)) (Z.pos md * 2 ^ (ed - e)) in
      if (r =? 0)%Z then (if sn then neg_zero else zero)
      else
        let f := FloatOps.Z.ldexp (JS.of_Z r) e in
        if sn then - f else f
  end.

End JSMath.

(** ** The functions inside [DeliveryPriorityDashboard] *)

Module Dashboard.




Record TimeRemaining : Type := { text : string; urgent : bool }.

Section Clock.

(** The string of a number in a template literal ([Number::toString]), and
    the time value of the [currentTime] state. *)
Variable Number_toString : float -> string.
Variable currentTime : float.

(** [deliveryEnd] is the time value of [new Date(order.delivery_window_end)]. *)
Definition minutesLeft (deliveryEnd : float) : float :=
  JSMath.Math_floor ((deliveryEnd - currentTime) / 60000).

Definition getTimeRemaining (deliveryEnd : float) : TimeRemaining :=
  let minutes := minutesLeft deliveryEnd in
  if minutes <=? 0 then {| text := "เลยเวลา!"; urgent := true |}
  else if minutes <=? 15 then
    {| text := Number_toString minutes ++ " นาที"; urgent := true |}
  else if minutes <=? 60 then
    {| text := Number_toString minutes ++ " นาที"; urgent := false |}
  else
    let hours := JSMath.Math_floor (minutes / 60) in
    {| text := Number_toString hours ++ " ชม. "
               ++ Number_toString (JSMath.remainder minutes 60) ++ " นาที";
       urgent := false |}.

End Clock.

Record Summary : Type := {
  total : nat;
  critical : nat;
  high : nat;
  totalValue : float
}.

Definition count_class (class : string) (orders : list Page.Order) : nat :=
  List.length
    (filter (fun o => match Page.priority_class o with
                      | Some c => String.eqb c class
                      | None => false
                      end) orders).

(** [o.total_value || 0] *)
Definition value_or_zero (o : Page.Order) : float :=
  ToNumber (or_default (match Page.total_value o with
                        | Some x => Num x
                        | None => Undefined
                        end) 0).

(** The [summary] of the component, on the [orders] state. *)
Definition summary (orders : list Page.Order) : Summary := {|
  total := List.length orders;
  critical := count_class "critical" orders;
  high := count_class "high" orders;
  totalValue := fold_left (fun sum o => sum + value_or_zero o) orders 0
|}.


Definition by_priority_score (a b : nat * Page.Order) : float :=
  Page.by_priority_score (snd a) (snd b).






End Dashboard.

(** ** Definitions for the further properties *)

(** The bands of [classifyPriority]. *)
Module Band.

Definition critical (score : float) : bool := 75 <=? score.
Definition high (score : float) : bool := negb (75 <=? score) && (60 <=? score).
Definition medium (score : float) : bool := negb (60 <=? score) && (40 <=? score).
Definition low (score : float) : bool := negb (40 <=? score).

End Band.



(** The time that remains, from a whole number of minutes. *)
Definition timeRemaining_of_minutes (Number_toString : float -> string) (m : Z)
    : Dashboard.TimeRemaining :=
  if (m <=? 0)%Z then {| Dashboard.text := "เลยเวลา!"; Dashboard.urgent := true |}
  else if (m <=? 60)%Z then
    {| Dashboard.text := Number_toString (JS.of_Z m) ++ " นาที";
       Dashboard.urgent := (m <=? 15)%Z |}
  else
    {| Dashboard.text := Number_toString (JS.of_Z (m / 60)) ++ " ชม. "
                         ++ Number_toString (JS.of_Z (m mod 60)) ++ " นาที";
       Dashboard.urgent := false |}.

(** On [m] whole minutes the tests and the two divisions of
    [getTimeRemaining] are those of the integers. *)
Definition minutes_exact (m : Z) : bool :=
  Bool.eqb (JS.of_Z m <=? 0) (m <=? 0)%Z
  && Bool.eqb (JS.of_Z m <=? 15) (m <=? 15)%Z
  && Bool.eqb (JS.of_Z m <=? 60) (m <=? 60)%Z
  && PrimFloat.Leibniz.eqb (JSMath.Math_floor (JS.of_Z m / 60)) (JS.of_Z (m / 60))
  && PrimFloat.Leibniz.eqb (JSMath.remainder (JS.of_Z m) 60) (JS.of_Z (m mod 60)).

(** [P] holds of the [count] integers from [m] on. *)
Fixpoint forall_from (count : nat) (m : Z) (P : Z -> bool) : bool :=
  match count with
  | O => true
  | S count' => P m && forall_from count' (m + 1)%Z P
  end.

(** The minutes of a week. *)
Definition week : nat := Z.to_nat 10081.



(** Every level a component score takes. *)
Definition every_level : list Z := [100; 90; 80; 75; 70; 60; 50; 40; 30; 25; 20]%Z.

(** The temperature score a product contributes. *)
Definition productTempScore (p : Product.t) : float :=
  ToNumber (or_default (tempScoreOf new (Product.category p)) 20).

(** No expiration of the order is NaN. *)
Definition expirations_are_numbers (order : Order.t) : Prop :=
  Forall (fun p => is_nan (Product.expiration_hours p) = false) (Order.products order).

Definition perishable_order : Order.t :=
  Order.mk "ORD500" "customer" "address" "economy" (Instant 0) (Instant 6000000)
    [Product.mk "P500" "water" "beverage" 10 2 8760;
     Product.mk "P501" "sandwich" "chilled" 45 1 8;
     Product.mk "P502" "gift" "wrapping" 30 1 720].

Definition missing_expiration_order : Order.t :=
  Order.mk "ORD501" "customer" "address" "economy" (Instant 0) (Instant 6000000)
    [Product.mk "P503" "rice box" "hot_food" 65 1 3;
     Product.mk "P504" "water" "beverage" 10 2 nan].

(** The categories of goods that are kept hot or cold, and medicine. *)
Definition sensitive : list string := ["hot_food"; "frozen"; "chilled"; "medicine"].

Definition unpriced_order : Order.t :=
  Order.mk "ORD502" "customer" "address" "urgent" (Instant 0) (Instant 6000000)
    [Product.mk "P505" "cake" "chilled" 450 1 24;
     Product.mk "P506" "candles" "daily_goods" nan 2 8760;
     Product.mk "P507" "juice" "beverage" 300 1 72].

(** An order whose delivery window is no date. *)
Definition undated_order : Order.t :=
  Order.mk "ORD503" "customer" "address" "urgent" (Instant 0) NotADate
    [Product.mk "P508" "rice box" "hot_food" 65 1 3].

(** ** Tactics *)

(** Splits a membership in a list literal into its cases. *)
Ltac in_cases H :=
  repeat (destruct H as [H | H]; [ try subst | ]); try contradiction.

(** Decides the tests on string literals one after the other, closing each
    branch in which the test succeeded with [tac]. *)
Ltac string_cases tac :=
  repeat match goal with
    | |- context [if String.eqb ?a ?b then _ else _] =>
        destruct (String.eqb a b) eqn:?; [ tac | ]
    end.

(** Closes a goal in which a threshold test holds for the larger of two
    ordered numbers and fails for the smaller one; [trans] is the
    transitivity of the order and [H] the fact that orders the two. *)
Ltac below_threshold trans H :=
  match goal with
  | Bk : (?b <=? ?k) = true, Ak : (?a <=? ?k) = false |- _ =>
      rewrite (trans a b k H Bk) in Ak; discriminate Ak
  end.

Ltac above_threshold trans H :=
  match goal with
  | Ak : (?k <=? ?a) = true, Bk : (?k <=? ?b) = false |- _ =>
      rewrite (trans k a b Ak H) in Bk; discriminate Bk
  end.

(** * Facts about binary64 comparisons

    Derived from the specification of the primitive operations
    ([FloatAxioms]): the comparisons of two numbers are those of their
    [spec_float] images. *)

Module FloatFacts.

Lemma SFcompare_antisym (x y : spec_float) :
  SFcompare y x = option_map CompOpp (SFcompare x y).
Proof.
  destruct x as [sx|sx| |sx mx ex], y as [sy|sy| |sy my ey]; simpl;
    try reflexivity; try (destruct sx; reflexivity); try (destruct sy; reflexivity);
    try (destruct sx, sy; reflexivity).
  assert (Hm : Pos.compare_cont Eq my mx = CompOpp (Pos.compare_cont Eq mx my))
    by (symmetry; apply (Pos.compare_cont_antisym mx my Eq)).
  destruct sx, sy; simpl; try reflexivity;
    rewrite (Z.compare_antisym ex ey), Hm;
    destruct (Z.compare ex ey); simpl; try reflexivity;
    destruct (Pos.compare_cont Eq mx my); reflexivity.
Qed.

Lemma SFcompare_None (x y : spec_float) :
  SFcompare x y = None -> x = S754_nan \/ y = S754_nan.
Proof.
  destruct x as [sx|sx| |sx mx ex], y as [sy|sy| |sy my ey]; simpl;
    intros H; try discriminate H; auto.
Qed.

Lemma is_nan_false_spec (x : float) : is_nan x = false -> Prim2SF x <> S754_nan.
Proof.
  unfold is_nan. rewrite eqb_spec. unfold SFeqb. intros H E.
  rewrite E in H. simpl in H. discriminate H.
Qed.

(** [x < y] excludes [y <= x]. *)
Lemma ltb_not_leb (x y : float) : (x <? y) = true -> (y <=? x) = false.
Proof.
  rewrite ltb_spec, leb_spec. unfold SFltb, SFleb.
  rewrite (SFcompare_antisym (Prim2SF x) (Prim2SF y)).
  destruct (SFcompare (Prim2SF x) (Prim2SF y)) as [[| |]|]; simpl;
    intros H; try discriminate H; reflexivity.
Qed.

(** Two numbers of which neither is NaN are comparable. *)
Lemma not_leb_ltb (x y : float) :
  is_nan x = false -> is_nan y = false -> (y <=? x) = false -> (x <? y) = true.
Proof.
  intros Hx Hy. apply is_nan_false_spec in Hx. apply is_nan_false_spec in Hy.
  rewrite ltb_spec, leb_spec. unfold SFltb, SFleb.
  rewrite (SFcompare_antisym (Prim2SF x) (Prim2SF y)).
  destruct (SFcompare (Prim2SF x) (Prim2SF y)) as [[| |]|] eqn:E; simpl;
    intros H; try discriminate H; try reflexivity.
  apply SFcompare_None in E. tauto.
Qed.

(** A comparison that holds has no NaN operand. *)
Lemma leb_true_not_nan (x y : float) :
  (x <=? y) = true -> is_nan x = false /\ is_nan y = false.
Proof.
  unfold is_nan. rewrite leb_spec, !eqb_spec. unfold SFleb, SFeqb.
  destruct (Prim2SF x) as [sx|sx| |sx mx ex], (Prim2SF y) as [sy|sy| |sy my ey];
    simpl; intros H; try discriminate H; split; try reflexivity;
    try (destruct sx; reflexivity); try (destruct sy; reflexivity).
  all: try (rewrite Z.compare_refl, Pos.compare_cont_refl; destruct sx; reflexivity).
  all: try (rewrite Z.compare_refl, Pos.compare_cont_refl; destruct sy; reflexivity).
Qed.

(** Nothing lies above a number and at or below a smaller one. *)
Lemma leb_above (a b m : float) :
  (a <? m) = true -> (m <=? b) = true -> (b <=? a) = false.
Proof.
  intros Ha E. destruct (b <=? a) eqn:Hb; [| reflexivity]. exfalso.
  pose proof (ltb_not_leb _ _ Ha) as N.
  revert Ha Hb E N. rewrite !ltb_spec, !leb_spec. unfold SFltb, SFleb.
  rewrite (SFcompare_antisym (Prim2SF a) (Prim2SF m)).
  destruct (Prim2SF a) as [sa|sa| |sa ma ea]; try discriminate;
  destruct (Prim2SF b) as [sb|sb| |sb mb eb]; try discriminate;
  destruct (Prim2SF m) as [sm|sm| |sm mm em]; simpl; try discriminate;
    try (destruct sa, sb; discriminate); try (destruct sa, sm; discriminate);
    try (destruct sb, sm; discriminate); try (destruct sa; discriminate);
    try (destruct sb; discriminate); try (destruct sm; discriminate).
  all: try (destruct sa, sb, sm; simpl; discriminate).
  destruct sa, sb, sm; simpl; try discriminate;
    destruct (Z.compare ea em) eqn:C1; destruct (Z.compare eb ea) eqn:C2;
    destruct (Z.compare em eb) eqn:C3; simpl; try discriminate;
    try (apply Z.compare_eq in C1); try (apply Z.compare_eq in C2);
    try (apply Z.compare_eq in C3);
    try (rewrite Z.compare_lt_iff in C1); try (rewrite Z.compare_lt_iff in C2);
    try (rewrite Z.compare_lt_iff in C3); try (rewrite Z.compare_gt_iff in C1);
    try (rewrite Z.compare_gt_iff in C2); try (rewrite Z.compare_gt_iff in C3);
    try lia.
  all: subst; rewrite ?Pos.compare_cont_spec; unfold Pos.switch_Eq;
    destruct (Pos.compare ma mm) eqn:D1; destruct (Pos.compare mb ma) eqn:D2;
    destruct (Pos.compare mm mb) eqn:D3; simpl; try discriminate;
    try (apply Pos.compare_eq in D1); try (apply Pos.compare_eq in D2);
    try (apply Pos.compare_eq in D3);
    try (rewrite Pos.compare_lt_iff in D1); try (rewrite Pos.compare_lt_iff in D2);
    try (rewrite Pos.compare_lt_iff in D3); try (rewrite Pos.compare_gt_iff in D1);
    try (rewrite Pos.compare_gt_iff in D2); try (rewrite Pos.compare_gt_iff in D3);
    try lia.
Qed.

End FloatFacts.

(** * The component scores take finitely many values *)

Section Components.

Context {host : Host}.
Variable order : Order.t.

Local Abbreviation this := OrderPriorityCalculator.new.

Lemma tempScoreOf_cases (category : string) :
  tempScoreOf this category = Undefined \/
  exists r, get (tempRequirements this) category = Own r /\
            tempScoreOf this category = Num (TempRequirement.score r) /\
            In (TempRequirement.score r) Levels.temperature.
Proof.
  unfold tempScoreOf, get. cbn [new tempRequirements find fst snd].
  string_cases ltac:(right; eexists; split; [reflexivity | split; [reflexivity | simpl; tauto]]).
  left. destruct (inherited category); reflexivity.
Qed.

Lemma product_tempScore_level (p : Product.t) :
  In (ToNumber (or_default (tempScoreOf this (Product.category p)) 20)) Levels.temperature.
Proof.
  destruct (tempScoreOf_cases (Product.category p)) as [E | [r [_ [E Hr]]]]; rewrite E.
  - simpl. tauto.
  - in_cases Hr; rewrite <- Hr; vm_compute; tauto.
Qed.

Lemma tempScores_levels : Forall (fun x => In x Levels.temperature) (tempScores this order).
Proof.
  unfold tempScores. apply Forall_forall. intros x Hx.
  apply in_map_iff in Hx. destruct Hx as [p [<- _]]. apply product_tempScore_level.
Qed.

Lemma level_not_nan (l : list float) :
  Forall (fun x => In x Levels.temperature) l -> existsb is_nan l = false.
Proof.
  induction 1 as [| x l Hx _ IH]; [reflexivity |].
  simpl. rewrite IH. in_cases Hx; reflexivity.
Qed.

Lemma Math_max_scan (l : list float) :
  Forall (fun x => In x Levels.temperature) l ->
  forall highest, In highest (neg_infinity :: Levels.temperature) ->
  l <> [] \/ In highest Levels.temperature ->
  In (fold_left
        (fun highest number =>
           if is_pos_zero number && is_neg_zero highest then number
           else if highest <? number then number else highest)
        l highest) Levels.temperature.
Proof.
  induction 1 as [| x l Hx _ IH]; intros highest Hh Hne.
  - simpl. destruct Hne as [Hne | Hne]; [congruence | exact Hne].
  - simpl. apply IH.
    + right. in_cases Hx; in_cases Hh; vm_compute; tauto.
    + right. in_cases Hx; in_cases Hh; vm_compute; tauto.
Qed.

Lemma maxTempScore_empty : Order.products order = [] -> maxTempScore this order = neg_infinity.
Proof. unfold maxTempScore, tempScores. intros ->. reflexivity. Qed.

Lemma maxTempScore_level :
  Order.products order <> [] -> In (maxTempScore this order) Levels.temperature.
Proof.
  intros Hne. unfold maxTempScore, Math_max.
  rewrite (level_not_nan _ tempScores_levels).
  apply Math_max_scan.
  - apply tempScores_levels.
  - left. reflexivity.
  - left. unfold tempScores. destruct (Order.products order); [congruence | discriminate].
Qed.

Lemma expirationScore_level : In (expirationScore order) Levels.expiration.
Proof.
  unfold expirationScore, scoreExpiration.
  repeat match goal with |- context [if ?c then _ else _] => destruct c end; simpl; tauto.
Qed.

Lemma valueScore_level : In (valueScore order) Levels.value.
Proof.
  unfold valueScore, scoreValue.
  repeat match goal with |- context [if ?c then _ else _] => destruct c end; simpl; tauto.
Qed.

Lemma windowScore_level : In (windowScore order) Levels.window.
Proof.
  unfold windowScore, scoreDeliveryWindow.
  repeat match goal with |- context [if ?c then _ else _] => destruct c end; simpl; tauto.
Qed.

Lemma fragilityScore_level : In (fragilityScore order) Levels.fragility.
Proof. unfold fragilityScore. destruct (hasMedicine order); simpl; tauto. Qed.

End Components.

Section Customer.

Variable order : Order.t.

Local Abbreviation this := OrderPriorityCalculator.new.

(** A customer priority that is no member of [Object.prototype] scores its
    table entry or the default 50. *)
Lemma customerScore_plain :
  inherited (Order.customer_priority order) = false ->
  In (ToNumber (customerScore this order)) Levels.customer.
Proof.
  intros H. unfold customerScore, get.
  cbn [new customerPriorityScores find fst snd].
  string_cases ltac:(vm_compute; tauto).
  rewrite H. simpl. tauto.
Qed.

(** One that is such a member reads the inherited function, which is truthy
    and converts to NaN. *)
Lemma customerScore_inherited :
  inherited (Order.customer_priority order) = true ->
  ToNumber (customerScore this order) = nan.
Proof.
  unfold inherited. intros H. apply existsb_exists in H.
  destruct H as [k [Hk E]]. apply String.eqb_eq in E.
  unfold customerScore. rewrite E. clear E.
  unfold ObjectPrototype in Hk. in_cases Hk; reflexivity.
Qed.

(** [tempRequirement] is always an entry of the table, so reading its
    [label] never throws. *)
Lemma tempRequirement_own : exists r, tempRequirement this order = Own r.
Proof.
  unfold tempRequirement, tempRequirementKey.
  destruct (highestTempProduct this order) as [p |] eqn:E.
  - apply find_some in E. destruct E as [_ Hs].
    destruct (tempScoreOf_cases (Product.category p)) as [U | [r [G _]]].
    + rewrite U in Hs. discriminate Hs.
    + destruct (String.eqb (Product.category p) "") eqn:Ee.
      * apply String.eqb_eq in Ee. rewrite Ee in G. discriminate G.
      * exists r. exact G.
  - eexists. reflexivity.
Qed.

End Customer.

(** * The weighted sum, evaluated on every combination of levels *)

Lemma forall6_spec lt le lc lv lw lf P :
  Table.forall6 lt le lc lv lw lf P = true ->
  forall t e c v w f,
    In t lt -> In e le -> In c lc -> In v lv -> In w lw -> In f lf ->
    P t e c v w f = true.
Proof.
  unfold Table.forall6. intros H t e c v w f Ht He Hc Hv Hw Hf.
  rewrite forallb_forall in H. specialize (H t Ht).
  rewrite forallb_forall in H. specialize (H e He).
  rewrite forallb_forall in H. specialize (H c Hc).
  rewrite forallb_forall in H. specialize (H v Hv).
  rewrite forallb_forall in H. specialize (H w Hw).
  rewrite forallb_forall in H. exact (H f Hf).
Qed.

Lemma exact_sum_everywhere :
  Table.forall6 Table.temperature Table.expiration Table.customer
    Table.value Table.window Table.fragility Table.exact_sum = true.
Proof. vm_compute. reflexivity. Qed.

Lemma bottom_everywhere :
  Table.forall6 [0%Z] Table.expiration Table.customer
    Table.value Table.window Table.fragility Table.bottom = true.
Proof. vm_compute. reflexivity. Qed.

Lemma poisoned_everywhere :
  Table.forall6 (0%Z :: Table.temperature) Table.expiration [0%Z]
    Table.value Table.window Table.fragility Table.poisoned = true.
Proof. vm_compute. reflexivity. Qed.

(** * The total score of an order *)

Section TotalScore.

Context {host : Host}.
Variable order : Order.t.

Local Abbreviation this := OrderPriorityCalculator.new.

Lemma totalScore_weighted :
  totalScore this order =
  Table.weighted (maxTempScore this order) (expirationScore order)
    (ToNumber (customerScore this order)) (valueScore order)
    (windowScore order) (fragilityScore order).
Proof. reflexivity. Qed.

Lemma level_of_Z (l : list Z) (x : float) :
  In x (map JS.of_Z l) -> exists z, In z l /\ x = JS.of_Z z.
Proof.
  intros H. apply in_map_iff in H. destruct H as [z [E Hz]]. exists z. auto.
Qed.

(** The facts of [Table.exact_sum], for an order with a product and a plain
    customer priority. *)
Lemma totalScore_exact :
  Order.products order <> [] ->
  inherited (Order.customer_priority order) = false ->
  exists h : Z,
    totalScore this order = JS.of_Z h / 100 /\
    Table.rounded (totalScore this order) = totalScore this order /\
    (0 <=? totalScore this order) = true /\
    (totalScore this order <=? 100) = true /\
    (2525 <= h <= 10000)%Z /\ (h mod 25 = 0)%Z.
Proof.
  intros Hne Hc. rewrite totalScore_weighted.
  destruct (level_of_Z Table.temperature _ (maxTempScore_level order Hne)) as [t [Ht ->]].
  destruct (level_of_Z Table.expiration _ (expirationScore_level order)) as [e [He ->]].
  destruct (level_of_Z Table.customer _ (customerScore_plain order Hc)) as [c [Hc' ->]].
  destruct (level_of_Z Table.value _ (valueScore_level order)) as [v [Hv ->]].
  destruct (level_of_Z Table.window _ (windowScore_level order)) as [w [Hw ->]].
  destruct (level_of_Z Table.fragility _ (fragilityScore_level order)) as [f [Hf ->]].
  pose proof (forall6_spec _ _ _ _ _ _ _ exact_sum_everywhere
                t e c v w f Ht He Hc' Hv Hw Hf) as H.
  unfold Table.exact_sum in H. cbv zeta in H.
  repeat (apply andb_prop in H; destruct H as [H ?]).
  exists (Table.hundredths t e c v w f).
  repeat split.
  - apply FloatAxioms.Leibniz.eqb_spec. assumption.
  - apply FloatAxioms.Leibniz.eqb_spec. assumption.
  - assumption.
  - assumption.
  - apply Z.leb_le. assumption.
  - apply Z.leb_le. assumption.
  - apply Z.eqb_eq. assumption.
Qed.

(** With no product (and a plain customer priority) the total is
    [-Infinity]. *)
Lemma totalScore_bottom :
  Order.products order = [] ->
  inherited (Order.customer_priority order) = false ->
  totalScore this order = neg_infinity /\
  Table.rounded (totalScore this order) = neg_infinity.
Proof.
  intros He0 Hc. rewrite totalScore_weighted, (maxTempScore_empty order He0).
  destruct (level_of_Z Table.expiration _ (expirationScore_level order)) as [e [He ->]].
  destruct (level_of_Z Table.customer _ (customerScore_plain order Hc)) as [c [Hc' ->]].
  destruct (level_of_Z Table.value _ (valueScore_level order)) as [v [Hv ->]].
  destruct (level_of_Z Table.window _ (windowScore_level order)) as [w [Hw ->]].
  destruct (level_of_Z Table.fragility _ (fragilityScore_level order)) as [f [Hf ->]].
  pose proof (forall6_spec _ _ _ _ _ _ _ bottom_everywhere
                0%Z e c v w f (or_introl eq_refl) He Hc' Hv Hw Hf) as H.
  unfold Table.bottom in H. cbv zeta in H.
  apply andb_prop in H. destruct H as [H1 H2].
  split; apply FloatAxioms.Leibniz.eqb_spec; assumption.
Qed.

(** With a customer priority inherited from [Object.prototype] the total is
    NaN, whatever the products. *)
Lemma totalScore_poisoned :
  inherited (Order.customer_priority order) = true ->
  totalScore this order = nan /\ Table.rounded (totalScore this order) = nan.
Proof.
  intros Hc. rewrite totalScore_weighted, (customerScore_inherited order Hc).
  assert (Ht : exists t, In t (0%Z :: Table.temperature) /\
               maxTempScore this order = if (t =? 0)%Z then neg_infinity else JS.of_Z t).
  { destruct (Order.products order) as [| p ps] eqn:E.
    - exists 0%Z. split; [left; reflexivity | apply maxTempScore_empty; exact E].
    - assert (Hne : Order.products order <> []) by (rewrite E; discriminate).
      destruct (level_of_Z Table.temperature _ (maxTempScore_level order Hne)) as [t [Ht Et]].
      exists t. split; [right; exact Ht |].
      rewrite Et. unfold Table.temperature in Ht. in_cases Ht; reflexivity. }
  destruct Ht as [t [Ht ->]].
  destruct (level_of_Z Table.expiration _ (expirationScore_level order)) as [e [He ->]].
  destruct (level_of_Z Table.value _ (valueScore_level order)) as [v [Hv ->]].
  destruct (level_of_Z Table.window _ (windowScore_level order)) as [w [Hw ->]].
  destruct (level_of_Z Table.fragility _ (fragilityScore_level order)) as [f [Hf ->]].
  pose proof (forall6_spec _ _ _ _ _ _ _ poisoned_everywhere
                t e 0%Z v w f Ht He (or_introl eq_refl) Hv Hw Hf) as H.
  unfold Table.poisoned in H. cbv zeta in H.
  apply andb_prop in H. destruct H as [H1 H2].
  split; apply FloatAxioms.Leibniz.eqb_spec; assumption.
Qed.

(** Rounding to two decimals never changes the total. *)
Lemma rounded_totalScore :
  Table.rounded (totalScore this order) = totalScore this order.
Proof.
  destruct (inherited (Order.customer_priority order)) eqn:Hc.
  - destruct (totalScore_poisoned Hc) as [-> ->]. reflexivity.
  - destruct (Order.products order) as [| p ps] eqn:E.
    + destruct (totalScore_bottom E Hc) as [-> ->]. reflexivity.
    + assert (Hne : Order.products order <> []) by (rewrite E; discriminate).
      destruct (totalScore_exact Hne Hc) as [h [_ [H _]]]. exact H.
Qed.

(** An engine accepts a call with no argument or with one. *)
Lemma accepts_one (count : nat) : (count <= 1)%nat -> accepts count = true.
Proof.
  intros H. unfold accepts. apply N.leb_le.
  destruct count as [| [| count]]; [simpl; lia | simpl; lia | lia].
Qed.

Lemma spread_accepted {A : Type} (args : list A) :
  accepts (List.length args) = true -> spread args = Return tt.
Proof. intros H. unfold spread. rewrite H. reflexivity. Qed.

Lemma spread_refused {A : Type} (args : list A) :
  accepts (List.length args) = false ->
  spread args = Throw "RangeError: Maximum call stack size exceeded".
Proof. intros H. unfold spread. rewrite H. reflexivity. Qed.

(** An order that does not fit the engine makes the call throw. *)
Lemma calculateOrderPriority_throws :
  accepts (List.length (Order.products order)) = false ->
  calculateOrderPriority this order
  = Throw "RangeError: Maximum call stack size exceeded".
Proof.
  intros H. unfold calculateOrderPriority.
  rewrite spread_refused; [reflexivity |].
  unfold tempScores. rewrite length_map. exact H.
Qed.

(** On an order that fits the engine the call returns, and what it returns. *)
Lemma calculateOrderPriority_returns :
  fits order ->
  exists r label,
    calculateOrderPriority this order = Return r /\
    tempRequirement this order = Own label /\
    r = {| ScoredOrder.order_id := Order.order_id order;
           ScoredOrder.priority_score := totalScore this order;
           ScoredOrder.priority_class := classifyPriority (totalScore this order);
           ScoredOrder.breakdown := breakdown this order;
           ScoredOrder.highest_temp_requirement := Some (TempRequirement.label label);
           ScoredOrder.total_value := totalValue order;
           ScoredOrder.earliest_expiration := minExpiration order;
           ScoredOrder.minutes_until_deadline := Math_round (minutesRemaining order);
           ScoredOrder.suggested_delivery_order := None |}.
Proof.
  intros Hf. destruct (tempRequirement_own order) as [label E].
  eexists. exists label. unfold calculateOrderPriority.
  rewrite !spread_accepted
    by (unfold tempScores, expirations; rewrite length_map; exact Hf).
  rewrite E. simpl.
  split; [reflexivity | split; [reflexivity |]].
  fold (Table.rounded (totalScore this order)). rewrite rounded_totalScore.
  reflexivity.
Qed.

(** When the call returns, the order fits the engine. *)
Lemma calculateOrderPriority_fits (r : ScoredOrder.t) :
  calculateOrderPriority this order = Return r -> fits order.
Proof.
  intros H. unfold fits.
  destruct (accepts (List.length (Order.products order))) eqn:E; [reflexivity |].
  rewrite (calculateOrderPriority_throws E) in H. discriminate H.
Qed.

End TotalScore.

(** * [Array_sort] under a comparator that follows an integer key

    When the sign test the sort performs on [comparefn x y] agrees, on the
    elements of the array, with the comparison of integer keys, the result is
    the permutation in descending key order in which elements of equal key
    keep their order. *)

Section SortByKey.

Context {A : Type}.
Variable comparefn : A -> A -> float.
Variable key : A -> Z.

Lemma insert_Permutation (x : A) (l : list A) :
  Permutation (x :: l) (insert comparefn x l).
Proof.
  induction l as [| y l IH]; simpl; [apply Permutation_refl |].
  destruct (0 <? comparefn x y).
  - eapply perm_trans; [apply perm_swap | apply perm_skip, IH].
  - apply Permutation_refl.
Qed.

Lemma Array_sort_Permutation (l : list A) : Permutation l (Array_sort comparefn l).
Proof.
  induction l as [| x l IH]; simpl; [apply perm_nil |].
  eapply perm_trans; [apply perm_skip, IH | apply insert_Permutation].
Qed.

Lemma insert_descending (x : A) (l : list A) :
  (forall y, In y l -> follows_key comparefn key x y) ->
  StronglySorted (descending key) l ->
  StronglySorted (descending key) (insert comparefn x l).
Proof.
  intros Hk Hs. induction Hs as [| y l Hs IH Hy]; simpl.
  - constructor; constructor.
  - pose proof (Hk y (or_introl eq_refl)) as Hxy. unfold follows_key in Hxy.
    rewrite Hxy. destruct (key x <? key y)%Z eqn:E.
    + apply Z.ltb_lt in E. constructor.
      * apply IH. intros z Hz. apply Hk. right. exact Hz.
      * apply Forall_forall. intros z Hz.
        apply (Permutation_in _ (Permutation_sym (insert_Permutation x l))) in Hz.
        destruct Hz as [<- | Hz].
        -- unfold descending. lia.
        -- rewrite Forall_forall in Hy. apply Hy. exact Hz.
    + apply Z.ltb_ge in E. constructor.
      * constructor; assumption.
      * constructor; [exact E |].
        rewrite Forall_forall in Hy |- *. intros z Hz.
        specialize (Hy z Hz). unfold descending in *. lia.
Qed.

Lemma Array_sort_descending (l : list A) :
  (forall x y, In x l -> In y l -> follows_key comparefn key x y) ->
  StronglySorted (descending key) (Array_sort comparefn l).
Proof.
  induction l as [| x l IH]; intros Hk; simpl; [constructor |].
  apply insert_descending.
  - intros y Hy. apply Hk; [left; reflexivity | right].
    apply (Permutation_in _ (Permutation_sym (Array_sort_Permutation l))). exact Hy.
  - apply IH. intros a b Ha Hb. apply Hk; right; assumption.
Qed.

(** Stability: among the elements of one key, [insert] and [Array_sort]
    change nothing. *)
Lemma insert_filter_key (z : Z) (x : A) (l : list A) :
  (forall y, In y l -> follows_key comparefn key x y) ->
  filter (fun a => (key a =? z)%Z) (insert comparefn x l) =
  filter (fun a => (key a =? z)%Z) (x :: l).
Proof.
  induction l as [| y l IH]; intros Hk; [reflexivity |].
  cbn [insert].
  pose proof (Hk y (or_introl eq_refl)) as Hxy. unfold follows_key in Hxy.
  rewrite Hxy. destruct (key x <? key y)%Z eqn:E; [| reflexivity].
  apply Z.ltb_lt in E.
  cbn [filter]. rewrite IH by (intros w Hw; apply Hk; right; exact Hw).
  cbn [filter].
  destruct (key x =? z)%Z eqn:Ex, (key y =? z)%Z eqn:Ey; try reflexivity.
  apply Z.eqb_eq in Ex, Ey. lia.
Qed.

Lemma Array_sort_filter_key (z : Z) (l : list A) :
  (forall x y, In x l -> In y l -> follows_key comparefn key x y) ->
  filter (fun a => (key a =? z)%Z) (Array_sort comparefn l) =
  filter (fun a => (key a =? z)%Z) l.
Proof.
  induction l as [| x l IH]; intros Hk; [reflexivity |].
  cbn [Array_sort fold_right]. fold (Array_sort comparefn l).
  rewrite insert_filter_key.
  - cbn [filter]. rewrite IH by (intros a b Ha Hb; apply Hk; right; assumption).
    reflexivity.
  - intros y Hy. apply Hk; [left; reflexivity | right].
    apply (Permutation_in _ (Permutation_sym (Array_sort_Permutation l))). exact Hy.
Qed.

End SortByKey.

(** * The scores that can occur, and their order *)

Lemma key_table_ok : forallb Keys.row_ok Keys.table = true.
Proof. vm_compute. reflexivity. Qed.

Lemma in_key_table (h : Z) : In h Keys.all -> In (h, Keys.of_key h) Keys.table.
Proof. intros H. unfold Keys.table. apply in_map_iff. exists h. auto. Qed.

Lemma key_row (h : Z) : In h Keys.all -> Keys.row_ok (h, Keys.of_key h) = true.
Proof.
  intros H. pose proof key_table_ok as T. rewrite forallb_forall in T.
  exact (T _ (in_key_table h H)).
Qed.

Lemma key_of_of_key (h : Z) : In h Keys.all -> Keys.key_of (Keys.of_key h) = h.
Proof.
  intros H. pose proof (key_row h H) as T. unfold Keys.row_ok in T.
  apply andb_prop in T. destruct T as [T _].
  apply andb_prop in T. destruct T as [T _]. apply Z.eqb_eq in T. exact T.
Qed.


Lemma key_order_agrees (a b : Z) :
  In a Keys.all -> In b Keys.all ->
  (0 <? Keys.of_key b - Keys.of_key a) = (a <? b)%Z /\
  (Keys.of_key b <=? Keys.of_key a) = (b <=? a)%Z /\
  (Keys.of_key a =? Keys.of_key b) = (a =? b)%Z.
Proof.
  intros Ha Hb. pose proof (key_row a Ha) as T. unfold Keys.row_ok in T.
  apply andb_prop in T. destruct T as [_ T]. rewrite forallb_forall in T.
  specialize (T _ (in_key_table b Hb)). unfold Keys.pair_ok in T. cbn [fst snd] in T.
  apply andb_prop in T. destruct T as [T T3].
  apply andb_prop in T. destruct T as [T1 T2].
  apply Bool.eqb_prop in T1, T2, T3. auto.
Qed.

Lemma in_all_keys (h : Z) : (2525 <= h <= 10000)%Z -> (h mod 25 = 0)%Z -> In h Keys.all.
Proof.
  intros Hr Hm. right. apply in_map_iff. exists (Z.to_nat (h / 25)).
  pose proof (Z.div_mod h 25 ltac:(lia)) as D.
  split.
  - rewrite Z2Nat.id by (apply Z.div_pos; lia). lia.
  - apply in_seq. split.
    + apply Nat2Z.inj_le. rewrite Z2Nat.id by (apply Z.div_pos; lia). lia.
    + apply Nat2Z.inj_lt. rewrite Z2Nat.id by (apply Z.div_pos; lia). lia.
Qed.

(** * Sorting by a score whose values are among the keys *)

Section SortByScore.

Context {A : Type}.
Variable sc : A -> float.

Lemma by_score_follows_key (l : list A) :
  Forall (in_keys sc) l ->
  forall x y, In x l -> In y l -> follows_key (by_score sc) (score_key sc) x y.
Proof.
  intros F x y Hx Hy. rewrite Forall_forall in F.
  destruct (F x Hx) as [a [Ha Ea]]. destruct (F y Hy) as [b [Hb Eb]].
  unfold follows_key, by_score, score_key. rewrite Ea, Eb.
  rewrite !key_of_of_key by assumption.
  apply (key_order_agrees a b Ha Hb).
Qed.

(** The sorted array: a permutation, in non-increasing score order, in which
    the elements of one score keep their order. *)
Lemma sorted_by_score (l : list A) :
  Forall (in_keys sc) l ->
  let sorted := Array_sort (by_score sc) l in
  Permutation l sorted /\
  StronglySorted (score_non_increasing sc) sorted /\
  (forall r, In r l ->
     filter (fun x => sc x =? sc r) sorted = filter (fun x => sc x =? sc r) l).
Proof.
  intros K sorted.
  pose proof (by_score_follows_key l K) as Hk.
  assert (P : Permutation l sorted) by apply Array_sort_Permutation.
  assert (K' : Forall (in_keys sc) sorted).
  { rewrite Forall_forall in K |- *. intros x Hx. apply K.
    apply (Permutation_in _ (Permutation_sym P)). exact Hx. }
  split; [exact P | split].
  - pose proof (Array_sort_descending (by_score sc) (score_key sc) l Hk) as S.
    fold sorted in S. clear - S K'.
    induction S as [| x l0 S IH Hx]; [constructor |].
    inversion K' as [| ? ? Kx Kl]; subst. constructor; [apply IH; exact Kl |].
    rewrite Forall_forall in Hx, Kl |- *. intros y Hy.
    specialize (Hx y Hy). destruct Kx as [a [Ha Ea]]. destruct (Kl y Hy) as [b [Hb Eb]].
    unfold descending, score_key in Hx. unfold score_non_increasing.
    rewrite Ea, Eb in *. rewrite !key_of_of_key in Hx by assumption.
    destruct (key_order_agrees a b Ha Hb) as [_ [-> _]]. apply Z.leb_le. exact Hx.
  - intros r Hr.
    pose proof (Array_sort_filter_key (by_score sc) (score_key sc) (score_key sc r) l Hk) as S.
    fold sorted in S.
    assert (E : forall l', Forall (in_keys sc) l' ->
                filter (fun x => sc x =? sc r) l' =
                filter (fun a => (score_key sc a =? score_key sc r)%Z) l').
    { intros l' Kl. apply filter_ext_in. intros x Hx.
      rewrite Forall_forall in Kl, K.
      destruct (Kl x Hx) as [a [Ha Ea]]. destruct (K r Hr) as [b [Hb Eb]].
      unfold score_key. rewrite Ea, Eb. rewrite !key_of_of_key by assumption.
      apply (key_order_agrees a b Ha Hb). }
    rewrite (E sorted K'), (E l K). exact S.
Qed.

End SortByScore.

(** * Ranking a batch in [route.ts] *)

Section Ranking.

Context {host : Host}.

Local Abbreviation this := OrderPriorityCalculator.new.
Local Abbreviation score := ScoredOrder.priority_score.

(** A batch of orders that fit the engine is scored without a throw. *)
Lemma mapM_returns (orders : list Order.t) :
  Forall fits orders ->
  exists results,
    mapM (Route.calculate this) (map Route.AnOrder orders) = Return results /\
    Forall2 (fun o r => calculateOrderPriority this o = Return r) orders results.
Proof.
  induction 1 as [| o orders Ho _ [results [E F]]].
  - exists []. split; [reflexivity | constructor].
  - destruct (calculateOrderPriority_returns o Ho) as [r [label [Er _]]].
    exists (r :: results). split.
    + simpl. rewrite Er. simpl. rewrite E. reflexivity.
    + constructor; assumption.
Qed.

(** An array is scored without a throw exactly when each of its elements is
    an order that fits the engine. *)
Lemma mapM_calculate (elements : list Route.Element) :
  if forallb scorable elements
  then exists orders results,
         elements = map Route.AnOrder orders /\ Forall fits orders /\
         mapM (Route.calculate this) elements = Return results
  else exists error, mapM (Route.calculate this) elements = Throw error.
Proof.
  induction elements as [| e elements IH]; [exists [], []; repeat split; constructor |].
  simpl. destruct e as [o |]; simpl.
  - destruct (accepts (List.length (Order.products o))) eqn:Ho; simpl.
    + destruct (calculateOrderPriority_returns o Ho) as [r [label [Er _]]].
      rewrite Er. simpl.
      destruct (forallb scorable elements).
      * destruct IH as [orders [results [-> [F E]]]].
        exists (o :: orders). eexists. split; [reflexivity |].
        split; [constructor; assumption |]. rewrite E. reflexivity.
      * destruct IH as [error E]. exists error. rewrite E. reflexivity.
    + rewrite (calculateOrderPriority_throws o Ho). eexists. reflexivity.
  - eexists. reflexivity.
Qed.

(** The score of an order with a plain customer priority is one of the scores
    of [Keys]. *)
Lemma totalScore_in_keys (o : Order.t) :
  inherited (Order.customer_priority o) = false ->
  exists h, In h Keys.all /\ totalScore this o = Keys.of_key h.
Proof.
  intros Hc. destruct (Order.products o) as [| p ps] eqn:E.
  - exists (-1)%Z. split; [left; reflexivity |].
    destruct (totalScore_bottom o E Hc) as [-> _]. reflexivity.
  - assert (Hne : Order.products o <> []) by (rewrite E; discriminate).
    destruct (totalScore_exact o Hne Hc) as [h [-> [_ [_ [_ [Hr Hm]]]]]].
    exists h. split; [apply in_all_keys; assumption |].
    unfold Keys.of_key. replace (h <? 0)%Z with false; [reflexivity |].
    symmetry. apply Z.ltb_ge. lia.
Qed.

Lemma score_in_keys (o : Order.t) (r : ScoredOrder.t) :
  inherited (Order.customer_priority o) = false ->
  calculateOrderPriority this o = Return r ->
  in_keys score r.
Proof.
  intros Hc Hr.
  destruct (calculateOrderPriority_returns o (calculateOrderPriority_fits o r Hr))
    as [r' [label [Er [_ ->]]]].
  rewrite Er in Hr. injection Hr as <-. unfold in_keys. cbn [ScoredOrder.priority_score].
  apply totalScore_in_keys. exact Hc.
Qed.

Lemma results_in_keys (orders : list Order.t) (results : list ScoredOrder.t) :
  plain orders ->
  Forall2 (fun o r => calculateOrderPriority this o = Return r) orders results ->
  Forall (in_keys score) results.
Proof.
  intros Hp F. induction F as [| o r orders results Hr F IH]; [constructor |].
  inversion Hp as [| ? ? Ho Hp']; subst. constructor.
  - eapply score_in_keys; eassumption.
  - apply IH. exact Hp'.
Qed.

(** [forEach_rank] numbers the array from [index + 1] and changes nothing
    else. *)
Lemma forEach_rank_spec (l : list ScoredOrder.t) (index : nat) :
  Route.forEach_rank index l =
  map (fun p => Route.set_suggested_delivery_order (fst p) (snd p))
      (combine l (seq (index + 1) (List.length l))).
Proof.
  revert index. induction l as [| r l IH]; intros index; [reflexivity |].
  simpl. rewrite IH. replace (S index + 1)%nat with (S (index + 1)) by lia.
  reflexivity.
Qed.

Lemma forEach_rank_numbers (l : list ScoredOrder.t) (index : nat) :
  map ScoredOrder.suggested_delivery_order (Route.forEach_rank index l) =
  map Some (seq (index + 1) (List.length l)).
Proof.
  revert index. induction l as [| r l IH]; intros index; [reflexivity |].
  simpl. rewrite IH. replace (S index + 1)%nat with (S (index + 1)) by lia.
  reflexivity.
Qed.

Lemma forEach_rank_scores (l : list ScoredOrder.t) (index : nat) :
  map score (Route.forEach_rank index l) = map score l.
Proof.
  revert index. induction l as [| r l IH]; intros index; [reflexivity |].
  simpl. rewrite IH. reflexivity.
Qed.

Lemma forEach_rank_length (l : list ScoredOrder.t) (index : nat) :
  List.length (Route.forEach_rank index l) = List.length l.
Proof.
  revert index. induction l as [| r l IH]; intros index; [reflexivity |].
  simpl. rewrite IH. reflexivity.
Qed.

Lemma Forall2_length_eq {A B : Type} (R : A -> B -> Prop) (l : list A) (l' : list B) :
  Forall2 R l l' -> List.length l = List.length l'.
Proof. induction 1; simpl; congruence. Qed.

End Ranking.

(** * The calculator of [page.tsx] computes what the one of [route.ts] computes *)

Lemma find_map {A B : Type} (f : B -> bool) (g : A -> B) (l : list A) :
  find f (map g l) = option_map g (find (fun x => f (g x)) l).
Proof.
  induction l as [| a l IH]; [reflexivity |].
  simpl. destruct (f (g a)); [reflexivity | exact IH].
Qed.

Lemma find_pointwise {A : Type} (f g : A -> bool) (l : list A) :
  (forall x, f x = g x) -> find f l = find g l.
Proof.
  intros H. induction l as [| a l IH]; [reflexivity |].
  simpl. rewrite (H a), IH. reflexivity.
Qed.

Lemma fold_left_over_map {A B C : Type} (f : C -> B -> C) (g : A -> B) (l : list A) (acc : C) :
  fold_left f (map g l) acc = fold_left (fun a x => f a (g x)) l acc.
Proof.
  revert acc. induction l as [| a l IH]; intros acc; [reflexivity |]. simpl. apply IH.
Qed.

Lemma existsb_over_map {A B : Type} (f : B -> bool) (g : A -> B) (l : list A) :
  existsb f (map g l) = existsb (fun x => f (g x)) l.
Proof.
  induction l as [| a l IH]; [reflexivity |]. simpl. rewrite IH. reflexivity.
Qed.

Section PageFacts.

Context {host : Host}.
Variable o : Page.Order.

Lemma page_tempScoreOf (c : Page.Category) :
  Page.tempScoreOf Page.new c = tempScoreOf new (Page.category_key c).
Proof. destruct c; reflexivity. Qed.

Lemma page_tempScores : Page.tempScores Page.new o = tempScores new (toRoute o).
Proof.
  unfold Page.tempScores, tempScores, toRoute. cbn [Order.products].
  rewrite map_map. apply map_ext. intros p. rewrite page_tempScoreOf. reflexivity.
Qed.

Lemma page_maxTempScore : Page.maxTempScore Page.new o = maxTempScore new (toRoute o).
Proof. unfold Page.maxTempScore, maxTempScore. rewrite page_tempScores. reflexivity. Qed.

Lemma page_minExpiration : Page.minExpiration o = minExpiration (toRoute o).
Proof.
  unfold Page.minExpiration, minExpiration, Page.expirations, expirations, toRoute.
  cbn [Order.products]. rewrite map_map. reflexivity.
Qed.

Lemma page_customerScore : Page.customerScore Page.new o = customerScore new (toRoute o).
Proof.
  unfold Page.customerScore, customerScore, toRoute. cbn [Order.customer_priority].
  destruct (Page.customer_priority o); reflexivity.
Qed.


Lemma page_totalValue : Page.totalValue o = totalValue (toRoute o).
Proof.
  unfold Page.totalValue, totalValue, toRoute. cbn [Order.products].
  rewrite fold_left_over_map. reflexivity.
Qed.

Lemma page_hasMedicine : Page.hasMedicine o = hasMedicine (toRoute o).
Proof.
  unfold Page.hasMedicine, hasMedicine, toRoute. cbn [Order.products].
  rewrite existsb_over_map. reflexivity.
Qed.

Lemma page_minutesRemaining : Page.minutesRemaining o = minutesRemaining (toRoute o).
Proof. reflexivity. Qed.

(** The sum of [page.tsx] has no leading [0 +]; on the temperature scores
    that occur, that addition changes nothing. *)
Lemma page_totalScore : Page.totalScore Page.new o = totalScore new (toRoute o).
Proof.
  rewrite totalScore_weighted. unfold Page.totalScore, Table.weighted. cbn [fold_left].
  unfold Page.expirationScore, Page.valueScore, Page.windowScore, Page.fragilityScore.
  rewrite page_maxTempScore, page_minExpiration, page_customerScore, page_totalValue,
    page_hasMedicine, page_minutesRemaining.
  assert (Z0 : 0 + maxTempScore new (toRoute o) * 0.30 = maxTempScore new (toRoute o) * 0.30).
  { destruct (Order.products (toRoute o)) as [| p ps] eqn:E.
    - rewrite (maxTempScore_empty _ E). reflexivity.
    - assert (Hne : Order.products (toRoute o) <> []) by (rewrite E; discriminate).
      pose proof (maxTempScore_level _ Hne) as L. unfold Levels.temperature in L.
      in_cases L; rewrite <- L; reflexivity. }
  rewrite Z0. reflexivity.
Qed.

Lemma page_tempRequirementKey :
  Page.tempRequirementKey Page.new o = tempRequirementKey new (toRoute o).
Proof.
  unfold Page.tempRequirementKey, tempRequirementKey, Page.highestTempProduct,
    highestTempProduct.
  rewrite page_maxTempScore.
  change (Order.products (toRoute o)) with (map toRouteProduct (Page.products o)).
  rewrite find_map. cbn [toRouteProduct Product.category].
  rewrite (find_pointwise
             (fun p => strict_eq (tempScoreOf new (Page.category_key (Page.category p)))
                         (maxTempScore new (toRoute o)))
             (fun p => strict_eq (Page.tempScoreOf Page.new (Page.category p))
                         (maxTempScore new (toRoute o)))).
  - destruct (find _ (Page.products o)); reflexivity.
  - intros p. rewrite page_tempScoreOf. reflexivity.
Qed.

Lemma page_table_label (k : string) :
  match get (Page.tempRequirements Page.new) k, get (tempRequirements new) k with
  | Own a, Own b => Page.label a = TempRequirement.label b
  | Inherited, Inherited => True
  | Missing, Missing => True
  | _, _ => False
  end.
Proof.
  unfold get. cbn [Page.new Page.tempRequirements new tempRequirements find fst snd].
  string_cases ltac:(reflexivity).
  destruct (inherited k); exact I.
Qed.

(** What the call returns: the order, with the computed fields that
    [route.ts] computes for it, on whatever host. *)
Lemma page_calculateOrderPriority_returns :
  exists label,
    tempRequirement new (toRoute o) = Own label /\
    Page.calculateOrderPriority Page.new o = Return {|
      Page.order_id := Page.order_id o;
      Page.customer_name := Page.customer_name o;
      Page.customer_address := Page.customer_address o;
      Page.delivery_latitude := Page.delivery_latitude o;
      Page.delivery_longitude := Page.delivery_longitude o;
      Page.customer_priority := Page.customer_priority o;
      Page.order_time := Page.order_time o;
      Page.delivery_window_end := Page.delivery_window_end o;
      Page.products := Page.products o;
      Page.priority_score := Some (totalScore new (toRoute o));
      Page.priority_class := Some (classifyPriority (totalScore new (toRoute o)));
      Page.suggested_delivery_order := Page.suggested_delivery_order o;
      Page.highest_temp_requirement := Some (TempRequirement.label label);
      Page.total_value := Some (totalValue (toRoute o));
      Page.earliest_expiration := Some (minExpiration (toRoute o))
    |}.
Proof.
  destruct (tempRequirement_own (toRoute o)) as [entry Eown].
  exists entry. split; [exact Eown |].
  unfold Page.calculateOrderPriority, Page.tempRequirement, Page.priorityClass.
  rewrite page_tempRequirementKey.
  pose proof (page_table_label (tempRequirementKey new (toRoute o))) as L.
  unfold tempRequirement in Eown. rewrite Eown in L.
  destruct (get (Page.tempRequirements Page.new) (tempRequirementKey new (toRoute o)))
    as [entry' | |]; try contradiction.
  cbn [bind]. rewrite L. rewrite page_totalScore.
  fold (Table.rounded (totalScore new (toRoute o))). rewrite rounded_totalScore.
  rewrite page_totalValue, page_minExpiration. reflexivity.
Qed.

End PageFacts.

(** * Ranking in [page.tsx] *)

Section PageRanking.

#[local] Existing Instance utc_host.






End PageRanking.

(** A relation on scores holds along a list exactly when it holds along a
    list with the same scores. *)
Lemma StronglySorted_same_scores {A : Type} (sc : A -> float) (l l' : list A) :
  map sc l = map sc l' ->
  StronglySorted (score_non_increasing sc) l ->
  StronglySorted (score_non_increasing sc) l'.
Proof.
  revert l'. induction l as [| a l IH]; intros [| a' l'] E S; try discriminate E.
  - constructor.
  - simpl in E. injection E as Ea El. inversion S as [| ? ? Sl Fa]; subst.
    constructor; [apply IH; assumption |].
    rewrite Forall_forall in Fa |- *. intros y' Hy'.
    apply (in_map sc) in Hy'. rewrite <- El in Hy'. apply in_map_iff in Hy'.
    destruct Hy' as [y [Ey Hy]]. specialize (Fa y Hy).
    unfold score_non_increasing in *. rewrite <- Ea, <- Ey. exact Fa.
Qed.

(** * The properties the specification states *)

Lemma float_neq (x y : float) : PrimFloat.Leibniz.eqb x y = false -> x <> y.
Proof.
  intros H E. apply FloatAxioms.Leibniz.eqb_spec in E. rewrite E in H. discriminate H.
Qed.

(** An order of one product fits every engine, and so does an order of none. *)
Lemma one_product_fits {host : Host} (order : Order.t) :
  (List.length (Order.products order) <= 1)%nat -> fits order.
Proof. intros H. unfold fits. apply accepts_one. exact H. Qed.

(** No engine accepts one argument more than it accepts. *)
Lemma accepts_no_more {host : Host} : accepts (S (Pos.to_nat maxArguments)) = false.
Proof. unfold accepts. apply N.leb_gt. lia. Qed.

Lemma too_long_order_throws {host : Host} :
  calculateOrderPriority new too_long_order
  = Throw "RangeError: Maximum call stack size exceeded".
Proof.
  apply calculateOrderPriority_throws. unfold too_long_order. cbn [Order.products].
  rewrite repeat_length. apply accepts_no_more.
Qed.

(** The score of a returned result, 0 for a throw. *)
Lemma returned_score_differs (a b : Completion ScoredOrder.t) (x y : float) :
  (exists r, a = Return r /\ ScoredOrder.priority_score r = x) ->
  (exists r, b = Return r /\ ScoredOrder.priority_score r = y) ->
  PrimFloat.Leibniz.eqb x y = false -> a <> b.
Proof.
  intros [ra [-> <-]] [rb [-> <-]] N E. injection E as ->.
  revert N. rewrite (proj2 (FloatAxioms.Leibniz.eqb_spec _ _) eq_refl). discriminate.
Qed.

(** ** The delivery window *)

(** C1, as the specification states it, fails: the window component of the
    order [late_order] (placed at time 0, due 200 minutes later) is that of
    200 remaining minutes, whatever the time [now] at which it is scored; at
    [now] = 190 minutes the specification would have it be the component of
    10 minutes. *)
Lemma window_ignores_scoring_time :
  ~ (forall (host : Host) (order : Order.t) (now : float) (r : ScoredOrder.t),
       calculateOrderPriority new order = Return r ->
       Breakdown.delivery_window (ScoredOrder.breakdown r) =
       scoreDeliveryWindow
         ((getTime (Order.delivery_window_end order) - now) / (1000 * 60)) * 0.15).
Proof.
  intros H. specialize (H utc_host late_order 11400000 _ eq_refl).
  revert H. apply float_neq. vm_compute. reflexivity.
Qed.

(** C1, amended: for an order that fits the engine (one with more products
    than the engine accepts arguments makes the call throw), the minutes
    remaining are those between the order's own [order_time] and its
    [delivery_window_end]; the window component is the step function of that
    number (100 up to 15 minutes, 90 up to 30, 70 up to 60, 50 up to 120,
    else 30) weighted by 0.15. The copy in [page.tsx] computes the same
    component. *)
Theorem window_score_from_order_time {host : Host} (order : Order.t) :
  fits order ->
  exists r, calculateOrderPriority new order = Return r /\
    let minutes :=
      (getTime (Order.delivery_window_end order) - getTime (Order.order_time order))
      / (1000 * 60) in
    Breakdown.delivery_window (ScoredOrder.breakdown r) = scoreDeliveryWindow minutes * 0.15 /\
    ScoredOrder.minutes_until_deadline r = Math_round minutes /\
    ((minutes <=? 15) = true -> scoreDeliveryWindow minutes = 100) /\
    ((15 <? minutes) = true -> (minutes <=? 30) = true -> scoreDeliveryWindow minutes = 90) /\
    ((30 <? minutes) = true -> (minutes <=? 60) = true -> scoreDeliveryWindow minutes = 70) /\
    ((60 <? minutes) = true -> (minutes <=? 120) = true -> scoreDeliveryWindow minutes = 50) /\
    ((120 <? minutes) = true -> scoreDeliveryWindow minutes = 30) /\
    (forall o : Page.Order,
       Page.windowScore o =
       Page.scoreDeliveryWindow
         ((Page.delivery_window_end o - Page.order_time o) / (1000 * 60))).
Proof.
  intros Hf.
  destruct (calculateOrderPriority_returns order Hf) as [r [label [Er [_ ->]]]].
  eexists. split; [exact Er |]. cbv zeta.
  cbn [ScoredOrder.breakdown ScoredOrder.minutes_until_deadline].
  set (minutes := (getTime (Order.delivery_window_end order)
                   - getTime (Order.order_time order)) / (1000 * 60)).
  assert (Hup : forall a b, (a <? minutes) = true -> (b <=? a) = true -> (minutes <=? b) = false).
  { intros a b Ha Hb. destruct (minutes <=? b) eqn:E; [| reflexivity].
    pose proof (FloatFacts.leb_above _ _ _ Ha E) as N. congruence. }
  repeat split.
  - unfold scoreDeliveryWindow. intros ->. reflexivity.
  - unfold scoreDeliveryWindow. intros H1 ->.
    rewrite (FloatFacts.ltb_not_leb _ _ H1). reflexivity.
  - unfold scoreDeliveryWindow. intros H1 ->.
    rewrite (FloatFacts.ltb_not_leb _ _ H1), (Hup 30 15 H1 eq_refl). reflexivity.
  - unfold scoreDeliveryWindow. intros H1 ->.
    rewrite (FloatFacts.ltb_not_leb _ _ H1), (Hup 60 15 H1 eq_refl), (Hup 60 30 H1 eq_refl).
    reflexivity.
  - unfold scoreDeliveryWindow. intros H1.
    rewrite (FloatFacts.ltb_not_leb _ _ H1), (Hup 120 15 H1 eq_refl),
      (Hup 120 30 H1 eq_refl), (Hup 120 60 H1 eq_refl).
    reflexivity.
Qed.

Lemma window_score_from_order_time_witness :
  exists r, calculateOrderPriority (host := bangkok_host) new late_order = Return r /\
    let minutes :=
      (getTime (host := bangkok_host) (Order.delivery_window_end late_order)
       - getTime (host := bangkok_host) (Order.order_time late_order))
      / (1000 * 60) in
    Breakdown.delivery_window (ScoredOrder.breakdown r) = scoreDeliveryWindow minutes * 0.15 /\
    ScoredOrder.minutes_until_deadline r = Math_round minutes /\
    ((minutes <=? 15) = true -> scoreDeliveryWindow minutes = 100) /\
    ((15 <? minutes) = true -> (minutes <=? 30) = true -> scoreDeliveryWindow minutes = 90) /\
    ((30 <? minutes) = true -> (minutes <=? 60) = true -> scoreDeliveryWindow minutes = 70) /\
    ((60 <? minutes) = true -> (minutes <=? 120) = true -> scoreDeliveryWindow minutes = 50) /\
    ((120 <? minutes) = true -> scoreDeliveryWindow minutes = 30) /\
    (forall o : Page.Order,
       Page.windowScore o =
       Page.scoreDeliveryWindow
         ((Page.delivery_window_end o - Page.order_time o) / (1000 * 60))).
Proof.
  apply (window_score_from_order_time (host := bangkok_host) late_order). reflexivity.
Defined.

(** ** The range of the score *)

(** C2 at its failing input: an order with one product whose customer
    priority is the string [constructor]. The table read yields the function
    inherited from [Object.prototype], which is truthy, so the default 50 is
    not taken; the customer component and with it the priority score are NaN,
    outside [0, 100]. *)
Lemma inherited_priority_escapes_range {host : Host} :
  exists r, calculateOrderPriority new inherited_priority_order = Return r /\
    Order.products inherited_priority_order <> [] /\
    customerScore new inherited_priority_order = Obj /\
    is_nan (ScoredOrder.priority_score r) = true /\
    (0 <=? ScoredOrder.priority_score r) = false /\
    (ScoredOrder.priority_score r <=? 100) = false.
Proof.
  destruct (calculateOrderPriority_returns inherited_priority_order
              (one_product_fits inherited_priority_order (le_n 1)))
    as [r [label [Er [_ ->]]]].
  eexists. split; [exact Er |].
  split; [discriminate |]. repeat split.
Qed.

(** ** Classification *)

(** C4: the class of a score [s] is critical exactly when 75 <= s, high
    exactly when 60 <= s < 75, medium exactly when 40 <= s < 60, and, for a
    score that is a number, low exactly when s < 40; 75.00 is critical, 74.99
    high, 60.00 high and 39.99 low. The copy in [page.tsx] is the same
    function. *)
Theorem classifyPriority_boundaries (s : float) :
  (classifyPriority s = "critical" <-> (75 <=? s) = true) /\
  (classifyPriority s = "high" <-> (60 <=? s) = true /\ (s <? 75) = true) /\
  (classifyPriority s = "medium" <-> (40 <=? s) = true /\ (s <? 60) = true) /\
  (is_nan s = false -> (classifyPriority s = "low" <-> (s <? 40) = true)) /\
  classifyPriority 75.00 = "critical" /\
  classifyPriority 74.99 = "high" /\
  classifyPriority 60.00 = "high" /\
  classifyPriority 39.99 = "low" /\
  Page.classifyPriority s = classifyPriority s.
Proof.
  assert (Hlo : forall a b, (a <=? s) = true -> (b <=? a) = true -> (b <=? s) = true).
  { intros a b Ha Hb. destruct (b <=? s) eqn:E; [reflexivity |]. exfalso.
    destruct (FloatFacts.leb_true_not_nan _ _ Ha) as [_ Ns].
    destruct (FloatFacts.leb_true_not_nan _ _ Hb) as [Nb _].
    pose proof (FloatFacts.not_leb_ltb _ _ Ns Nb E) as L.
    pose proof (FloatFacts.leb_above _ _ _ L Hb) as N. congruence. }
  assert (N75 : (75 <=? s) = false -> (60 <=? s) = true -> (s <? 75) = true).
  { intros H1 H2. destruct (FloatFacts.leb_true_not_nan _ _ H2) as [_ Ns].
    apply FloatFacts.not_leb_ltb; [exact Ns | reflexivity | exact H1]. }
  assert (N60 : (60 <=? s) = false -> (40 <=? s) = true -> (s <? 60) = true).
  { intros H1 H2. destruct (FloatFacts.leb_true_not_nan _ _ H2) as [_ Ns].
    apply FloatFacts.not_leb_ltb; [exact Ns | reflexivity | exact H1]. }
  unfold Page.classifyPriority, classifyPriority.
  split; [| split; [| split; [| split]]].
  - split.
    + destruct (75 <=? s); [reflexivity |].
      destruct (60 <=? s); [discriminate |]. destruct (40 <=? s); discriminate.
    + intros ->. reflexivity.
  - split.
    + destruct (75 <=? s) eqn:E1; [discriminate |]. destruct (60 <=? s) eqn:E2.
      * intros _. split; [reflexivity | apply N75; auto].
      * destruct (40 <=? s); discriminate.
    + intros [H1 H2]. rewrite (FloatFacts.ltb_not_leb _ _ H2), H1. reflexivity.
  - split.
    + destruct (75 <=? s) eqn:E1; [discriminate |].
      destruct (60 <=? s) eqn:E2; [discriminate |].
      destruct (40 <=? s) eqn:E3; [| discriminate].
      intros _. split; [reflexivity | apply N60; auto].
    + intros [H1 H2]. pose proof (FloatFacts.ltb_not_leb _ _ H2) as H3.
      destruct (75 <=? s) eqn:E1.
      * rewrite (Hlo 75 60 E1 eq_refl) in H3. discriminate H3.
      * rewrite H3, H1. reflexivity.
  - intros Ns. split.
    + intros C. destruct (75 <=? s) eqn:E1; [discriminate |].
      destruct (60 <=? s) eqn:E2; [discriminate |].
      destruct (40 <=? s) eqn:E3; [discriminate |].
      apply FloatFacts.not_leb_ltb; [assumption | reflexivity | exact E3].
    + intros H2. pose proof (FloatFacts.ltb_not_leb _ _ H2) as H3.
      destruct (75 <=? s) eqn:E1; [rewrite (Hlo 75 40 E1 eq_refl) in H3; discriminate H3 |].
      destruct (60 <=? s) eqn:E2; [rewrite (Hlo 60 40 E2 eq_refl) in H3; discriminate H3 |].
      rewrite H3. reflexivity.
  - repeat split.
Qed.

(** ** Ranking *)

(** C3 at its failing input: a batch of [urgent_order] and an order whose
    customer priority is [constructor]. The second result has the score NaN,
    the comparator returns NaN on the pair, and whichever way a sort arranges
    the two results, the scores are not in non-increasing order. [POST]
    answers with success, the NaN score ranked second. *)
Lemma ranking_with_inherited_priority {host : Host} :
  exists r1 r2 summary,
    mapM (calculateOrderPriority new) [urgent_order; inherited_priority_order]
    = Return [r1; r2] /\
    (forall l, Permutation [r1; r2] l -> ~ StronglySorted non_increasing l) /\
    Route.POST (Return (Route.NotNull {| Route.orders :=
                 Route.OrdersArray [Route.AnOrder urgent_order;
                                    Route.AnOrder inherited_priority_order] |}))
    = Route.json
        (Route.Success true 2
           [Route.set_suggested_delivery_order r1 1; Route.set_suggested_delivery_order r2 2]
           summary) 200 /\
    ScoredOrder.priority_score r1 = 89 /\
    is_nan (ScoredOrder.priority_score r2) = true.
Proof.
  destruct (calculateOrderPriority_returns urgent_order
              (one_product_fits urgent_order (le_n 1))) as [r1 [l1 [E1 [_ R1]]]].
  destruct (calculateOrderPriority_returns inherited_priority_order
              (one_product_fits inherited_priority_order (le_n 1)))
    as [r2 [l2 [E2 [_ R2]]]].
  exists r1, r2. eexists. split; [| split; [| split]].
  - simpl. rewrite E1, E2. reflexivity.
  - subst r1 r2. intros l P S. apply Permutation_length_2_inv in P.
    destruct P as [-> | ->]; inversion S as [| ? ? _ F]; subst;
      inversion F as [| ? ? N _]; subst; unfold non_increasing in N;
      vm_compute in N; discriminate N.
  - unfold Route.POST. cbn [Route.orders mapM Route.calculate bind].
    rewrite E1, E2. cbn [bind]. subst r1 r2. reflexivity.
  - subst r1 r2. split; reflexivity.
Qed.

(** ** Orders without products *)

(** C5 at its failing input: an order without products whose customer
    priority is [constructor]. The call returns, and its priority score is
    NaN. *)
Lemma empty_order_with_inherited_priority {host : Host} :
  exists r, calculateOrderPriority new empty_inherited_order = Return r /\
    Order.products empty_inherited_order = [] /\
    is_nan (ScoredOrder.priority_score r) = true.
Proof.
  destruct (calculateOrderPriority_returns empty_inherited_order
              (one_product_fits empty_inherited_order (le_S 0 0 (le_n 0))))
    as [r [label [Er [_ ->]]]].
  eexists. split; [exact Er |]. repeat split.
Qed.

(** ** The two scenarios *)

Section Scenarios.

Context {host : Host}.
Variable order : Order.t.
Variable p : Product.t.
Hypothesis one_product : Order.products order = [p].

Lemma scenario_fits : fits order.
Proof. apply one_product_fits. rewrite one_product. apply le_n. Qed.

Lemma scenario_components (category : string) (price quantity hours : float) :
  Product.category p = category -> Product.price p = price ->
  Product.quantity p = quantity -> Product.expiration_hours p = hours ->
  tempScores new order = [ToNumber (or_default (tempScoreOf new category) 20)] /\
  expirations order = [hours] /\
  totalValue order = 0 + price * quantity /\
  hasMedicine order = (String.eqb category "medicine" || false).
Proof.
  intros <- <- <- <-.
  unfold tempScores, expirations, totalValue, hasMedicine. rewrite one_product.
  repeat split.
Qed.

End Scenarios.

(** C6, as the specification states it, fails: the order of the scenario,
    placed 200 minutes before the end of its delivery window and scored 25
    minutes before it, is scored 80 (the window component is that of 200
    minutes), not 89. *)
Lemma hot_food_scored_from_order_time :
  ~ (forall (host : Host) (order : Order.t) (p : Product.t) (now : float)
            (r : ScoredOrder.t),
       Order.products order = [p] ->
       Product.category p = "hot_food" ->
       Product.price p = 65 ->
       Product.quantity p = 1 ->
       Product.expiration_hours p = 3 ->
       Order.customer_priority order = "urgent" ->
       getTime (Order.delivery_window_end order) - now = 1500000 ->
       calculateOrderPriority new order = Return r ->
       ScoredOrder.priority_score r = 89.0).
Proof.
  intros H.
  specialize (H utc_host early_hot_food_order
                (Product.mk "P001" "rice box" "hot_food" 65 1 3) 10500000 _
                eq_refl eq_refl eq_refl eq_refl eq_refl eq_refl eq_refl eq_refl).
  revert H. apply float_neq. vm_compute. reflexivity.
Qed.

(** C6, amended: one hot_food product of price 65, quantity 1, expiring in 3
    hours, an urgent customer, the window closing 25 minutes (1500000 ms)
    after the order's own [order_time]: the score is 89 and the class
    critical, from the components temperature 100, expiration 100, customer
    100, value 40, window 90 and fragility 30. *)
Theorem scenario_hot_food {host : Host} (order : Order.t) (p : Product.t) :
  Order.products order = [p] ->
  Product.category p = "hot_food" ->
  Product.price p = 65 ->
  Product.quantity p = 1 ->
  Product.expiration_hours p = 3 ->
  Order.customer_priority order = "urgent" ->
  getTime (Order.delivery_window_end order) - getTime (Order.order_time order) = 1500000 ->
  exists r, calculateOrderPriority new order = Return r /\
    ScoredOrder.priority_score r = 89.0 /\
    ScoredOrder.priority_class r = "critical" /\
    maxTempScore new order = 100 /\
    expirationScore order = 100 /\
    customerScore new order = Num 100 /\
    valueScore order = 40 /\
    windowScore order = 90 /\
    fragilityScore order = 30.
Proof.
  intros Hp Hc Hpr Hq He Hcp Hw.
  destruct (scenario_components order p Hp _ _ _ _ Hc Hpr Hq He) as [Ts [Es [Tv Hm]]].
  assert (Ht : maxTempScore new order = 100) by (unfold maxTempScore; rewrite Ts; reflexivity).
  assert (Hx : expirationScore order = 100)
    by (unfold expirationScore, minExpiration; rewrite Es; reflexivity).
  assert (Hs : customerScore new order = Num 100)
    by (unfold customerScore; rewrite Hcp; reflexivity).
  assert (Hv : valueScore order = 40) by (unfold valueScore; rewrite Tv; reflexivity).
  assert (Hwin : windowScore order = 90).
  { unfold windowScore, minutesRemaining, deliveryEnd, now. rewrite Hw. reflexivity. }
  assert (Hf : fragilityScore order = 30) by (unfold fragilityScore; rewrite Hm; reflexivity).
  destruct (calculateOrderPriority_returns order (scenario_fits order p Hp))
    as [r [label [Er [_ ->]]]].
  eexists. split; [exact Er |].
  cbn [ScoredOrder.priority_score ScoredOrder.priority_class].
  rewrite totalScore_weighted, Ht, Hx, Hs, Hv, Hwin, Hf.
  repeat split.
Qed.

Lemma scenario_hot_food_witness :
  exists r, calculateOrderPriority (host := bangkok_host) new urgent_order = Return r /\
    ScoredOrder.priority_score r = 89.0 /\
    ScoredOrder.priority_class r = "critical" /\
    maxTempScore new urgent_order = 100 /\
    expirationScore urgent_order = 100 /\
    customerScore new urgent_order = Num 100 /\
    valueScore urgent_order = 40 /\
    windowScore (host := bangkok_host) urgent_order = 90 /\
    fragilityScore urgent_order = 30.
Proof.
  apply (scenario_hot_food (host := bangkok_host) urgent_order
           (Product.mk "P001" "rice box" "hot_food" 65 1 3));
    reflexivity.
Defined.




(** ** Unrecognized categories *)

Lemma tempScoreOf_unrecognized (category : string) :
  ~ In category recognized -> tempScoreOf new category = Undefined.
Proof.
  intros H. unfold tempScoreOf, get. cbn [new tempRequirements find fst snd].
  string_cases ltac:(exfalso; apply H;
                     match goal with E : String.eqb _ _ = true |- _ =>
                       apply String.eqb_eq in E; rewrite <- E end;
                     simpl; tauto).
  destruct (inherited category); reflexivity.
Qed.

Lemma find_all_false {A : Type} (f : A -> bool) (l : list A) :
  (forall x, In x l -> f x = false) -> find f l = None.
Proof.
  induction l as [| a l IH]; intros H; [reflexivity |].
  simpl. rewrite (H a (or_introl eq_refl)). apply IH.
  intros x Hx. apply H. right. exact Hx.
Qed.

Lemma Math_max_twenties (l : list float) :
  l <> [] -> Forall (fun x => x = 20) l -> Math_max l = 20.
Proof.
  intros Hne F. unfold Math_max.
  assert (N : existsb is_nan l = false).
  { clear Hne. induction F as [| x l -> _ IH]; [reflexivity | simpl; exact IH]. }
  rewrite N. clear N.
  destruct F as [| x l -> F]; [congruence |]. clear Hne. simpl.
  change (if neg_infinity <? 20 then 20 else neg_infinity) with 20.
  induction F as [| y l -> _ IH]; [reflexivity | simpl; exact IH].
Qed.

(** C8, as the specification states it, fails: an order of unrecognized
    products with one product more than the engine accepts arguments makes
    [Math.max(...tempScores)] throw a RangeError, before any category is
    looked at. The order here has 120001 products, on an engine that accepts
    120000 arguments. *)
Lemma long_unrecognized_order_throws :
  ~ (forall (host : Host) (order : Order.t),
       Order.products order <> [] ->
       (forall p, In p (Order.products order) -> ~ In (Product.category p) recognized) ->
       exists r, calculateOrderPriority new order = Return r).
Proof.
  intros H.
  destruct (H utc_host (too_long_order (host := utc_host))) as [r Er].
  - discriminate.
  - intros p Hp. apply repeat_spec in Hp. rewrite Hp.
    vm_compute. intuition discriminate.
  - rewrite too_long_order_throws in Er. discriminate Er.
Qed.

(** C8, amended: an order that fits the engine, with at least one product,
    none of a recognized category, is scored without a throw; each product
    contributes the temperature score 20, the maximum is 20, and the label
    reported is the label of the table's [snack] entry. *)
Theorem unrecognized_categories_fall_back {host : Host} (order : Order.t) :
  fits order ->
  Order.products order <> [] ->
  (forall p, In p (Order.products order) -> ~ In (Product.category p) recognized) ->
  exists r snack,
    calculateOrderPriority new order = Return r /\
    tempScores new order = map (fun _ => 20) (Order.products order) /\
    maxTempScore new order = 20 /\
    get (tempRequirements new) "snack" = Own snack /\
    ScoredOrder.highest_temp_requirement r = Some (TempRequirement.label snack).
Proof.
  intros Hf Hne Hu.
  assert (Ts : tempScores new order = map (fun _ => 20) (Order.products order)).
  { unfold tempScores. apply map_ext_in. intros p Hp.
    rewrite (tempScoreOf_unrecognized _ (Hu p Hp)). reflexivity. }
  assert (Tm : maxTempScore new order = 20).
  { unfold maxTempScore. rewrite Ts. apply Math_max_twenties.
    - destruct (Order.products order); [congruence | discriminate].
    - apply Forall_forall. intros x Hx. apply in_map_iff in Hx.
      destruct Hx as [_ [<- _]]. reflexivity. }
  assert (Hp : highestTempProduct new order = None).
  { unfold highestTempProduct. apply find_all_false. intros p Hp.
    rewrite (tempScoreOf_unrecognized _ (Hu p Hp)). reflexivity. }
  assert (Tr : tempRequirement new order = get (tempRequirements new) "snack").
  { unfold tempRequirement, tempRequirementKey. rewrite Hp. reflexivity. }
  destruct (calculateOrderPriority_returns order Hf) as [r [label [Er [El ->]]]].
  rewrite Tr in El.
  eexists. exists label. split; [exact Er |].
  split; [exact Ts |]. split; [exact Tm |]. split; [exact El | reflexivity].
Qed.

Lemma unrecognized_categories_witness :
  exists r snack,
    calculateOrderPriority (host := bangkok_host) new unrecognized_order = Return r /\
    tempScores new unrecognized_order = [20; 20] /\
    maxTempScore new unrecognized_order = 20 /\
    get (tempRequirements new) "snack" = Own snack /\
    ScoredOrder.highest_temp_requirement r = Some (TempRequirement.label snack).
Proof.
  apply (unrecognized_categories_fall_back (host := bangkok_host) unrecognized_order).
  - reflexivity.
  - discriminate.
  - intros p [<- | [<- | []]]; vm_compute; intuition discriminate.
Defined.

(** ** Determinism *)

(** C9, as the specification states it, fails: the host is an input that
    the order does not carry. [zoned_order], whose delivery window ends at a
    local time, is scored 89 on a host on Bangkok time and 80 on a host on
    UTC: the time zone enters through [new Date(order.delivery_window_end)]. *)
Lemma time_zone_changes_the_score :
  ~ (forall (host1 host2 : Host) (order : Order.t),
       calculateOrderPriority (host := host1) new order
       = calculateOrderPriority (host := host2) new order).
Proof.
  intros H. specialize (H bangkok_host utc_host zoned_order). revert H.
  apply (returned_score_differs _ _ 89 80).
  - eexists. split; reflexivity.
  - eexists. split; reflexivity.
  - reflexivity.
Qed.

(** C9, amended: on two hosts that accept the order's products as arguments
    and on which its two timestamps have the same time values (the same host
    twice; hosts in one time zone; or an order whose timestamps carry their
    offset), the two invocations return, and return the same object in every
    field. The clocks of the hosts, and how many arguments more their engines
    accept, do not enter the result. *)
Theorem scoring_is_deterministic (host1 host2 : Host) (order : Order.t) :
  fits (host := host1) order ->
  fits (host := host2) order ->
  same_times host1 host2 order ->
  exists r,
    calculateOrderPriority (host := host1) new order = Return r /\
    calculateOrderPriority (host := host2) new order = Return r.
Proof.
  intros F1 F2 [Et Ed].
  destruct (calculateOrderPriority_returns (host := host1) order F1)
    as [r1 [l1 [E1 [L1 R1]]]].
  destruct (calculateOrderPriority_returns (host := host2) order F2)
    as [r2 [l2 [E2 [L2 R2]]]].
  rewrite L1 in L2. injection L2 as <-.
  assert (Em : minutesRemaining (host := host1) order
               = minutesRemaining (host := host2) order).
  { unfold minutesRemaining, deliveryEnd, now. rewrite Et, Ed. reflexivity. }
  assert (Eb : breakdown (host := host1) new order = breakdown (host := host2) new order).
  { unfold breakdown, windowScore. rewrite Em. reflexivity. }
  assert (Es : totalScore (host := host1) new order = totalScore (host := host2) new order).
  { unfold totalScore. rewrite Eb. reflexivity. }
  exists r1. split; [exact E1 |]. rewrite E2, R1, R2, Es, Eb, Em. reflexivity.
Qed.

Lemma scoring_is_deterministic_witness :
  exists r,
    calculateOrderPriority (host := utc_host) new urgent_order = Return r /\
    calculateOrderPriority (host := bangkok_host) new urgent_order = Return r.
Proof.
  apply (scoring_is_deterministic utc_host bangkok_host urgent_order).
  - reflexivity.
  - reflexivity.
  - split; reflexivity.
Defined.

(** ** The empty batch *)

(** C10: on a request whose [orders] is the empty array the handler answers
    200 with [success] and [total_orders] 0, and the [avg_score] of its
    summary is the quotient of 0 by 0, which is NaN. *)
Theorem empty_batch_average_is_NaN {host : Host} :
  Route.POST (Return (Route.NotNull {| Route.orders := Route.OrdersArray [] |}))
  = Route.json
      (Route.Success true 0 []
         {| Route.critical := 0; Route.high := 0; Route.medium := 0; Route.low := 0;
            Route.avg_score := 0 / JS.of_nat 0 |})
      200 /\
  JS.of_nat 0 = 0 /\
  is_nan (0 / JS.of_nat 0) = true.
Proof. repeat split. Qed.

(** * Further properties of the two calculators *)

(** ** [route.ts]: when the call returns, and the class of what it returns *)

(** The call returns exactly when the order has no more products than the
    engine accepts arguments, and otherwise throws the RangeError of the
    spread; reading the label never throws. When it returns, the priority
    score it reports is the total score itself (rounding to two decimals
    changes nothing), so the priority class is the class of the reported
    score. *)
Theorem calculateOrderPriority_total {host : Host} (order : Order.t) :
  if accepts (List.length (Order.products order))
  then exists r, calculateOrderPriority new order = Return r /\
         ScoredOrder.priority_score r = totalScore new order /\
         ScoredOrder.priority_class r = classifyPriority (ScoredOrder.priority_score r)
  else calculateOrderPriority new order
       = Throw "RangeError: Maximum call stack size exceeded".
Proof.
  destruct (accepts (List.length (Order.products order))) eqn:E.
  - destruct (calculateOrderPriority_returns order E) as [r [label [Er [_ ->]]]].
    eexists. split; [exact Er |]. split; reflexivity.
  - apply calculateOrderPriority_throws. exact E.
Qed.

(** ** [route.ts]: the score of an order with a plain customer priority *)

(** An order that fits the engine, with at least one product, whose customer
    priority names no member of [Object.prototype], has a priority score
    between 0 and 100: the float nearest to [h / 100] for the integer [h] of
    hundredths, a multiple of 25 between 2525 and 10000. *)
Theorem priority_score_within_range {host : Host} (order : Order.t) :
  fits order ->
  Order.products order <> [] ->
  inherited (Order.customer_priority order) = false ->
  exists r h,
    calculateOrderPriority new order = Return r /\
    (0 <=? ScoredOrder.priority_score r) = true /\
    (ScoredOrder.priority_score r <=? 100) = true /\
    ScoredOrder.priority_score r = JS.of_Z h / 100 /\
    (2525 <= h <= 10000)%Z /\ (h mod 25 = 0)%Z.
Proof.
  intros Hf Hne Hc.
  destruct (calculateOrderPriority_returns order Hf) as [r [label [Er [_ ->]]]].
  destruct (totalScore_exact order Hne Hc) as [h [Eh [_ [H0 [H100 [Hr Hm]]]]]].
  eexists. exists h. split; [exact Er |]. cbn [ScoredOrder.priority_score]. auto.
Qed.

Lemma priority_score_within_range_witness :
  exists r h,
    calculateOrderPriority (host := bangkok_host) new medicine_order = Return r /\
    (0 <=? ScoredOrder.priority_score r) = true /\
    (ScoredOrder.priority_score r <=? 100) = true /\
    ScoredOrder.priority_score r = JS.of_Z h / 100 /\
    (2525 <= h <= 10000)%Z /\ (h mod 25 = 0)%Z.
Proof.
  apply (priority_score_within_range (host := bangkok_host) medicine_order);
    [reflexivity | discriminate | reflexivity].
Defined.

(** An order without products, whose customer priority names no member of
    [Object.prototype], is scored [-Infinity] and classed low; its label is
    that of the [snack] entry, its earliest expiration [+Infinity] and its
    total value 0. *)
Theorem empty_order_scores_neg_infinity {host : Host} (order : Order.t) :
  Order.products order = [] ->
  inherited (Order.customer_priority order) = false ->
  exists r snack,
    calculateOrderPriority new order = Return r /\
    ScoredOrder.priority_score r = neg_infinity /\
    is_nan (ScoredOrder.priority_score r) = false /\
    ScoredOrder.priority_class r = "low" /\
    get (tempRequirements new) "snack" = Own snack /\
    ScoredOrder.highest_temp_requirement r = Some (TempRequirement.label snack) /\
    ScoredOrder.earliest_expiration r = infinity /\
    ScoredOrder.total_value r = 0.
Proof.
  intros He Hc.
  assert (Hf : fits order) by (apply one_product_fits; rewrite He; repeat constructor).
  destruct (calculateOrderPriority_returns order Hf) as [r [label [Er [Eown ->]]]].
  destruct (totalScore_bottom order He Hc) as [Eb _].
  eexists. eexists. split; [exact Er |].
  cbn [ScoredOrder.priority_score ScoredOrder.priority_class
       ScoredOrder.highest_temp_requirement ScoredOrder.earliest_expiration
       ScoredOrder.total_value].
  rewrite Eb.
  unfold tempRequirement, tempRequirementKey, highestTempProduct in Eown.
  unfold minExpiration, expirations, totalValue. rewrite He in *. simpl in Eown.
  injection Eown as <-.
  repeat split.
Qed.

Lemma empty_order_scores_neg_infinity_witness :
  exists r snack,
    calculateOrderPriority (host := bangkok_host) new empty_order = Return r /\
    ScoredOrder.priority_score r = neg_infinity /\
    is_nan (ScoredOrder.priority_score r) = false /\
    ScoredOrder.priority_class r = "low" /\
    get (tempRequirements new) "snack" = Own snack /\
    ScoredOrder.highest_temp_requirement r = Some (TempRequirement.label snack) /\
    ScoredOrder.earliest_expiration r = infinity /\
    ScoredOrder.total_value r = 0.
Proof.
  apply (empty_order_scores_neg_infinity (host := bangkok_host) empty_order); reflexivity.
Defined.

(** On an order that fits the engine, a customer priority that names a
    member of [Object.prototype] makes the priority score NaN and the class
    low, whatever the rest of the order. *)
Theorem inherited_priority_scores_NaN {host : Host} (order : Order.t) :
  fits order ->
  inherited (Order.customer_priority order) = true ->
  exists r, calculateOrderPriority new order = Return r /\
    ScoredOrder.priority_score r = nan /\
    ScoredOrder.priority_class r = "low".
Proof.
  intros Hf Hc.
  destruct (calculateOrderPriority_returns order Hf) as [r [label [Er [_ ->]]]].
  destruct (totalScore_poisoned order Hc) as [En _].
  eexists. split; [exact Er |].
  cbn [ScoredOrder.priority_score ScoredOrder.priority_class]. rewrite En.
  split; reflexivity.
Qed.

Lemma inherited_priority_scores_NaN_witness :
  exists r,
    calculateOrderPriority (host := bangkok_host) new inherited_priority_order = Return r /\
    ScoredOrder.priority_score r = nan /\
    ScoredOrder.priority_class r = "low".
Proof.
  apply (inherited_priority_scores_NaN (host := bangkok_host) inherited_priority_order);
    reflexivity.
Defined.

(** ** [route.ts]: the response to a batch *)

(** On an array of orders that fit the engine [POST] answers 200 with the
    sorted, numbered results. *)
Lemma POST_on_array {host : Host} (orders : list Order.t) :
  Forall fits orders ->
  exists results,
    Forall2 (fun o r => calculateOrderPriority new o = Return r) orders results /\
    let sorted := Route.forEach_rank 0 (Array_sort Route.by_priority_score results) in
    Route.POST (Return (Route.NotNull
                  {| Route.orders := Route.OrdersArray (map Route.AnOrder orders) |}))
    = Route.json
        (Route.Success true (List.length sorted) sorted
           {| Route.critical := Route.count_class "critical" sorted;
              Route.high := Route.count_class "high" sorted;
              Route.medium := Route.count_class "medium" sorted;
              Route.low := Route.count_class "low" sorted;
              Route.avg_score :=
                fold_left (fun sum o => sum + ScoredOrder.priority_score o) sorted 0
                / JS.of_nat (List.length sorted) |})
        200.
Proof.
  intros Hf. destruct (mapM_returns orders Hf) as [results [E F]].
  exists results. split; [exact F |].
  unfold Route.POST. cbn [Route.orders]. rewrite E. reflexivity.
Qed.

(** A batch of orders that fit the engine, in which no customer priority
    names a member of [Object.prototype], is answered with the results
    numbered 1..N, in non-increasing order of priority score; the sorted
    array is a permutation of the results in which results of equal score
    keep the order of the request. *)
Theorem ranking_of_plain_batch {host : Host} (orders : list Order.t) :
  Forall fits orders ->
  plain orders ->
  exists results sorted summary,
    Forall2 (fun o r => calculateOrderPriority new o = Return r) orders results /\
    sorted = Array_sort Route.by_priority_score results /\
    Route.POST (Return (Route.NotNull
                  {| Route.orders := Route.OrdersArray (map Route.AnOrder orders) |}))
    = Route.json
        (Route.Success true (List.length orders) (Route.forEach_rank 0 sorted) summary) 200 /\
    map ScoredOrder.suggested_delivery_order (Route.forEach_rank 0 sorted)
    = map Some (seq 1 (List.length orders)) /\
    map ScoredOrder.priority_score (Route.forEach_rank 0 sorted)
    = map ScoredOrder.priority_score sorted /\
    StronglySorted non_increasing (Route.forEach_rank 0 sorted) /\
    Permutation results sorted /\
    (forall r, In r results ->
       filter (fun x => ScoredOrder.priority_score x =? ScoredOrder.priority_score r) sorted
       = filter (fun x => ScoredOrder.priority_score x =? ScoredOrder.priority_score r) results).
Proof.
  intros Hf Hp. destruct (POST_on_array orders Hf) as [results [F E]].
  pose proof (results_in_keys orders results Hp F) as K.
  destruct (sorted_by_score ScoredOrder.priority_score results K) as [P [S St]].
  change (by_score ScoredOrder.priority_score) with Route.by_priority_score in P, S, St.
  assert (L : List.length (Array_sort Route.by_priority_score results) = List.length orders).
  { rewrite <- (Permutation_length P). symmetry. eapply Forall2_length_eq. exact F. }
  exists results, (Array_sort Route.by_priority_score results). eexists.
  split; [exact F |]. split; [reflexivity |]. split.
  - cbv zeta in E. rewrite E. rewrite forEach_rank_length, L. reflexivity.
  - split; [rewrite forEach_rank_numbers, L; reflexivity |].
    split; [apply forEach_rank_scores |].
    split; [| split; [exact P | exact St]].
    apply (StronglySorted_same_scores ScoredOrder.priority_score
             (Array_sort Route.by_priority_score results)).
    + symmetry. apply forEach_rank_scores.
    + exact S.
Qed.

Lemma ranking_of_plain_batch_witness :
  exists results sorted summary,
    Forall2 (fun o r => calculateOrderPriority (host := bangkok_host) new o = Return r)
      [medicine_order; urgent_order; empty_order; medicine_order_relabelled] results /\
    sorted = Array_sort Route.by_priority_score results /\
    Route.POST (host := bangkok_host)
      (Return (Route.NotNull
         {| Route.orders := Route.OrdersArray
              (map Route.AnOrder
                 [medicine_order; urgent_order; empty_order; medicine_order_relabelled]) |}))
    = Route.json (Route.Success true 4 (Route.forEach_rank 0 sorted) summary) 200 /\
    map ScoredOrder.suggested_delivery_order (Route.forEach_rank 0 sorted)
    = [Some 1; Some 2; Some 3; Some 4]%nat /\
    map ScoredOrder.priority_score (Route.forEach_rank 0 sorted)
    = map ScoredOrder.priority_score sorted /\
    StronglySorted non_increasing (Route.forEach_rank 0 sorted) /\
    Permutation results sorted /\
    (forall r, In r results ->
       filter (fun x => ScoredOrder.priority_score x =? ScoredOrder.priority_score r) sorted
       = filter (fun x => ScoredOrder.priority_score x =? ScoredOrder.priority_score r) results).
Proof.
  apply (ranking_of_plain_batch (host := bangkok_host)
           [medicine_order; urgent_order; empty_order; medicine_order_relabelled]);
    repeat constructor.
Defined.

(** ** [page.tsx] *)


Section PageTheorems.

(** The host of [route.ts] does not matter to what follows: the orders of
    [page.tsx] carry their time values. *)
#[local] Existing Instance utc_host.



(** Scoring an order that [page.tsx] has already scored returns it
    unchanged. *)
Theorem page_rescoring_is_idempotent (o : Page.Order) :
  bind (Page.calculateOrderPriority Page.new o) (Page.calculateOrderPriority Page.new)
  = Page.calculateOrderPriority Page.new o.
Proof.
  destruct (page_calculateOrderPriority_returns o) as [label [El Ec]].
  rewrite Ec. cbn [bind].
  match goal with |- Page.calculateOrderPriority _ ?c = _ =>
    destruct (page_calculateOrderPriority_returns c) as [label' [El' Ec']]
  end.
  change (tempRequirement new (toRoute o) = Own label') in El'.
  rewrite El in El'. injection El' as <-.
  rewrite Ec'. reflexivity.
Qed.

End PageTheorems.

(** * More facts about binary64 comparisons *)

Module FloatOrder.

Lemma ltb_leb (x y : float) : (x <? y) = true -> (x <=? y) = true.
Proof.
  rewrite ltb_spec, leb_spec. unfold SFltb, SFleb.
  destruct (SFcompare (Prim2SF x) (Prim2SF y)) as [[| |]|]; intros H;
    try discriminate H; reflexivity.
Qed.

Lemma eqb_leb (x y : float) : (x =? y) = true -> (x <=? y) = true.
Proof.
  rewrite eqb_spec, leb_spec. unfold SFeqb, SFleb.
  destruct (SFcompare (Prim2SF x) (Prim2SF y)) as [[| |]|]; intros H;
    try discriminate H; reflexivity.
Qed.

Lemma eqb_sym (x y : float) : (x =? y) = (y =? x).
Proof.
  rewrite !eqb_spec. unfold SFeqb.
  rewrite (FloatFacts.SFcompare_antisym (Prim2SF x) (Prim2SF y)).
  destruct (SFcompare (Prim2SF x) (Prim2SF y)) as [[| |]|]; reflexivity.
Qed.

Lemma leb_trans (x y z : float) :
  (x <=? y) = true -> (y <=? z) = true -> (x <=? z) = true.
Proof.
  intros Hxy Hyz. destruct (x <=? z) eqn:E; [reflexivity |]. exfalso.
  destruct (FloatFacts.leb_true_not_nan _ _ Hxy) as [Nx _].
  destruct (FloatFacts.leb_true_not_nan _ _ Hyz) as [_ Nz].
  pose proof (FloatFacts.not_leb_ltb _ _ Nz Nx E) as L.
  pose proof (FloatFacts.leb_above _ _ _ L Hxy) as N. congruence.
Qed.

(** Below a number that is not NaN lies what is not above it. *)
Lemma not_ltb_leb (x y : float) :
  is_nan x = false -> is_nan y = false -> (x <? y) = false -> (y <=? x) = true.
Proof.
  intros Nx Ny H. destruct (y <=? x) eqn:E; [reflexivity |].
  rewrite (FloatFacts.not_leb_ltb _ _ Nx Ny E) in H. discriminate H.
Qed.

Lemma leb_refl (x : float) : is_nan x = false -> (x <=? x) = true.
Proof.
  unfold is_nan. intros H. apply eqb_leb. destruct (x =? x); [reflexivity | discriminate H].
Qed.

(** A comparison with NaN fails. *)
Lemma leb_nan_l (x : float) : is_nan x = true -> forall y, (x <=? y) = false.
Proof.
  intros H y. destruct (x <=? y) eqn:E; [| reflexivity].
  destruct (FloatFacts.leb_true_not_nan _ _ E) as [N _]. congruence.
Qed.

Lemma leb_nan_r (y : float) : is_nan y = true -> forall x, (x <=? y) = false.
Proof.
  intros H x. destruct (x <=? y) eqn:E; [| reflexivity].
  destruct (FloatFacts.leb_true_not_nan _ _ E) as [_ N]. congruence.
Qed.

(** NaN is the one number that is NaN. *)
Lemma is_nan_eq (x : float) : is_nan x = true -> x = nan.
Proof.
  unfold is_nan. rewrite eqb_spec. unfold SFeqb. intros H.
  apply Prim2SF_inj.
  destruct (Prim2SF x) as [s|s| |s m e] eqn:E; simpl in H.
  - discriminate H.
  - destruct s; discriminate H.
  - reflexivity.
  - rewrite Z.compare_refl, Pos.compare_cont_refl in H. destruct s; discriminate H.
Qed.

End FloatOrder.

(** * The step functions follow the order of their arguments *)

Lemma scoreExpiration_antitone (a b : float) :
  (a <=? b) = true -> (scoreExpiration b <=? scoreExpiration a) = true.
Proof.
  intros H. unfold scoreExpiration.
  destruct (a <=? 3) eqn:A3, (a <=? 8) eqn:A8, (a <=? 24) eqn:A24, (a <=? 168) eqn:A168,
    (b <=? 3) eqn:B3, (b <=? 8) eqn:B8, (b <=? 24) eqn:B24, (b <=? 168) eqn:B168;
    try reflexivity; below_threshold FloatOrder.leb_trans H.
Qed.

Lemma scoreDeliveryWindow_antitone (a b : float) :
  (a <=? b) = true -> (scoreDeliveryWindow b <=? scoreDeliveryWindow a) = true.
Proof.
  intros H. unfold scoreDeliveryWindow.
  destruct (a <=? 15) eqn:A15, (a <=? 30) eqn:A30, (a <=? 60) eqn:A60, (a <=? 120) eqn:A120,
    (b <=? 15) eqn:B15, (b <=? 30) eqn:B30, (b <=? 60) eqn:B60, (b <=? 120) eqn:B120;
    try reflexivity; below_threshold FloatOrder.leb_trans H.
Qed.

Lemma scoreValue_monotone (a b : float) :
  (a <=? b) = true -> (scoreValue a <=? scoreValue b) = true.
Proof.
  intros H. unfold scoreValue.
  destruct (500 <=? a) eqn:A500, (200 <=? a) eqn:A200, (100 <=? a) eqn:A100, (50 <=? a) eqn:A50,
    (500 <=? b) eqn:B500, (200 <=? b) eqn:B200, (100 <=? b) eqn:B100, (50 <=? b) eqn:B50;
    try reflexivity; above_threshold FloatOrder.leb_trans H.
Qed.

(** Of two numbers the smaller scores at least as high as an expiration and
    as a number of minutes remaining, and at most as high as an order value. *)
Theorem step_scores_follow_order (a b : float) :
  (a <=? b) = true ->
  (scoreExpiration b <=? scoreExpiration a) = true /\
  (scoreDeliveryWindow b <=? scoreDeliveryWindow a) = true /\
  (scoreValue a <=? scoreValue b) = true.
Proof.
  intros H. split; [| split].
  - apply scoreExpiration_antitone. exact H.
  - apply scoreDeliveryWindow_antitone. exact H.
  - apply scoreValue_monotone. exact H.
Qed.

Lemma step_scores_follow_order_witness :
  (scoreExpiration 24 <=? scoreExpiration 8) = true /\
  (scoreDeliveryWindow 24 <=? scoreDeliveryWindow 8) = true /\
  (scoreValue 8 <=? scoreValue 24) = true.
Proof. apply (step_scores_follow_order 8 24). reflexivity. Defined.

(** * The score follows the component scores *)

Section Dominance.

Context {host : Host}.

Local Abbreviation this := OrderPriorityCalculator.new.

(** The component scores of an order with a product and a plain customer
    priority are levels of the tables, and the total is the quotient by 100
    of their integer sum. *)
Lemma totalScore_components (order : Order.t) :
  Order.products order <> [] ->
  inherited (Order.customer_priority order) = false ->
  exists t e c v w f : Z,
    (In t Table.temperature /\ In e Table.expiration /\ In c Table.customer /\
     In v Table.value /\ In w Table.window /\ In f Table.fragility) /\
    (maxTempScore this order = JS.of_Z t /\ expirationScore order = JS.of_Z e /\
     ToNumber (customerScore this order) = JS.of_Z c /\ valueScore order = JS.of_Z v /\
     windowScore order = JS.of_Z w /\ fragilityScore order = JS.of_Z f) /\
    In (Table.hundredths t e c v w f) Keys.all /\
    totalScore this order = Keys.of_key (Table.hundredths t e c v w f).
Proof.
  intros Hne Hc.
  destruct (level_of_Z Table.temperature _ (maxTempScore_level order Hne)) as [t [Ht Et]].
  destruct (level_of_Z Table.expiration _ (expirationScore_level order)) as [e [He Ee]].
  destruct (level_of_Z Table.customer _ (customerScore_plain order Hc)) as [c [Hc' Ec]].
  destruct (level_of_Z Table.value _ (valueScore_level order)) as [v [Hv Ev]].
  destruct (level_of_Z Table.window _ (windowScore_level order)) as [w [Hw Ew]].
  destruct (level_of_Z Table.fragility _ (fragilityScore_level order)) as [f [Hf Ef]].
  exists t, e, c, v, w, f. split; [tauto |]. split; [tauto |].
  pose proof (forall6_spec _ _ _ _ _ _ _ exact_sum_everywhere
                t e c v w f Ht He Hc' Hv Hw Hf) as H.
  unfold Table.exact_sum in H. cbv zeta in H.
  repeat (apply andb_prop in H; destruct H as [H ?]).
  apply FloatAxioms.Leibniz.eqb_spec in H.
  assert (Hr : (2525 <= Table.hundredths t e c v w f <= 10000)%Z)
    by (split; apply Z.leb_le; assumption).
  split.
  - apply in_all_keys; [exact Hr | apply Z.eqb_eq; assumption].
  - rewrite totalScore_weighted, Et, Ee, Ec, Ev, Ew, Ef, H.
    unfold Keys.of_key. replace (Table.hundredths t e c v w f <? 0)%Z with false;
      [reflexivity | symmetry; apply Z.ltb_ge; lia].
Qed.

Lemma every_level_holds (x : Z) :
  In x Table.temperature \/ In x Table.expiration \/ In x Table.customer \/
  In x Table.value \/ In x Table.window \/ In x Table.fragility ->
  In x every_level.
Proof.
  unfold Table.temperature, Table.expiration, Table.customer, Table.value,
    Table.window, Table.fragility, every_level.
  intros [H | [H | [H | [H | [H | H]]]]]; in_cases H; simpl; tauto.
Qed.

(** On the levels the order of the floats is the order of the integers. *)
Lemma level_order (x y : Z) :
  In x every_level -> In y every_level ->
  (JS.of_Z x <=? JS.of_Z y) = true -> (x <= y)%Z.
Proof.
  unfold every_level. intros Hx Hy H.
  in_cases Hx; in_cases Hy; try lia; vm_compute in H; discriminate H.
Qed.

Lemma key_at_least (h : Z) : In h Keys.all -> (-1 <= h)%Z.
Proof.
  intros [<- | H]; [lia |]. apply in_map_iff in H. destruct H as [n [<- _]]. lia.
Qed.

End Dominance.

(** Of two orders that fit the engine, an order whose six component scores
    are each at most those of the other has a priority score that is at most
    the other's (the customer priority of neither being a member of
    [Object.prototype]). *)
Theorem score_follows_components {host : Host} (a b : Order.t) :
  fits a -> fits b ->
  inherited (Order.customer_priority a) = false ->
  inherited (Order.customer_priority b) = false ->
  (maxTempScore new a <=? maxTempScore new b) = true ->
  (expirationScore a <=? expirationScore b) = true ->
  (ToNumber (customerScore new a) <=? ToNumber (customerScore new b)) = true ->
  (valueScore a <=? valueScore b) = true ->
  (windowScore a <=? windowScore b) = true ->
  (fragilityScore a <=? fragilityScore b) = true ->
  exists ra rb,
    calculateOrderPriority new a = Return ra /\
    calculateOrderPriority new b = Return rb /\
    (ScoredOrder.priority_score ra <=? ScoredOrder.priority_score rb) = true.
Proof.
  intros Fa Fb Ha Hb Ht He Hc Hv Hw Hf.
  destruct (calculateOrderPriority_returns a Fa) as [ra [la [Era [_ ->]]]].
  destruct (calculateOrderPriority_returns b Fb) as [rb [lb [Erb [_ ->]]]].
  eexists. eexists. split; [exact Era |]. split; [exact Erb |].
  cbn [ScoredOrder.priority_score].
  destruct (totalScore_in_keys b Hb) as [hb [Kb Eb]].
  destruct (Order.products a) as [| pa psa] eqn:Pa.
  - destruct (totalScore_bottom a Pa Ha) as [-> _]. rewrite Eb.
    change neg_infinity with (Keys.of_key (-1)).
    destruct (key_order_agrees hb (-1) Kb (or_introl eq_refl)) as [_ [-> _]].
    apply Z.leb_le. apply key_at_least. exact Kb.
  - assert (Na : Order.products a <> []) by (rewrite Pa; discriminate).
    destruct (totalScore_components a Na Ha)
      as [ta [ea [ca [va [wa [fa [[Ita [Iea [Ica [Iva [Iwa Ifa]]]]]
           [[Eta [Eea [Eca [Eva [Ewa Efa]]]]] [Ka Sa]]]]]]]]].
    destruct (Order.products b) as [| pb psb] eqn:Pb.
    + exfalso. rewrite (maxTempScore_empty b Pb), Eta in Ht.
      unfold Table.temperature in Ita. in_cases Ita; vm_compute in Ht; discriminate Ht.
    + assert (Nb : Order.products b <> []) by (rewrite Pb; discriminate).
      destruct (totalScore_components b Nb Hb)
        as [tb [eb [cb [vb [wb [fb [[Itb [Ieb [Icb [Ivb [Iwb Ifb]]]]]
             [[Etb [Eeb [Ecb [Evb [Ewb Efb]]]]] [Kb' Sb]]]]]]]]].
      rewrite Eta, Etb in Ht. rewrite Eea, Eeb in He. rewrite Eca, Ecb in Hc.
      rewrite Eva, Evb in Hv. rewrite Ewa, Ewb in Hw. rewrite Efa, Efb in Hf.
      apply level_order in Ht; [| apply every_level_holds; tauto ..].
      apply level_order in He; [| apply every_level_holds; tauto ..].
      apply level_order in Hc; [| apply every_level_holds; tauto ..].
      apply level_order in Hv; [| apply every_level_holds; tauto ..].
      apply level_order in Hw; [| apply every_level_holds; tauto ..].
      apply level_order in Hf; [| apply every_level_holds; tauto ..].
      rewrite Sa, Sb.
      destruct (key_order_agrees _ _ Kb' Ka) as [_ [-> _]].
      apply Z.leb_le. unfold Table.hundredths. lia.
Qed.

Lemma score_follows_components_witness :
  exists ra rb,
    calculateOrderPriority (host := bangkok_host) new late_order = Return ra /\
    calculateOrderPriority (host := bangkok_host) new urgent_order = Return rb /\
    (ScoredOrder.priority_score ra <=? ScoredOrder.priority_score rb) = true.
Proof.
  apply (score_follows_components (host := bangkok_host) late_order urgent_order);
    reflexivity.
Defined.

(** * NaN in the arithmetic, and the ends of the order *)

Module FloatNaN.

Lemma is_nan_spec (x : float) : Prim2SF x = S754_nan -> x = nan.
Proof. intros H. apply Prim2SF_inj. rewrite H. reflexivity. Qed.

Lemma add_nan_l (x : float) : nan + x = nan.
Proof. apply is_nan_spec. rewrite add_spec. reflexivity. Qed.

Lemma add_nan_r (x : float) : x + nan = nan.
Proof.
  apply is_nan_spec. rewrite add_spec.
  change (Prim2SF nan) with S754_nan. destruct (Prim2SF x); reflexivity.
Qed.

Lemma sub_nan_l (x : float) : nan - x = nan.
Proof. apply is_nan_spec. rewrite sub_spec. reflexivity. Qed.

Lemma sub_nan_r (x : float) : x - nan = nan.
Proof.
  apply is_nan_spec. rewrite sub_spec.
  change (Prim2SF nan) with S754_nan. destruct (Prim2SF x); reflexivity.
Qed.

Lemma mul_nan_l (x : float) : nan * x = nan.
Proof. apply is_nan_spec. rewrite mul_spec. reflexivity. Qed.

Lemma mul_nan_r (x : float) : x * nan = nan.
Proof.
  apply is_nan_spec. rewrite mul_spec.
  change (Prim2SF nan) with S754_nan. destruct (Prim2SF x); reflexivity.
Qed.

Lemma div_nan_l (x : float) : nan / x = nan.
Proof. apply is_nan_spec. rewrite div_spec. reflexivity. Qed.

(** Nothing but [-Infinity] is at most [-Infinity], and nothing but
    [+Infinity] at least [+Infinity]. *)
Lemma leb_neg_infinity (x : float) : (x <=? neg_infinity) = true -> x = neg_infinity.
Proof.
  rewrite leb_spec. intros H. apply Prim2SF_inj.
  change (Prim2SF neg_infinity) with (S754_infinity true) in *.
  destruct (Prim2SF x) as [s | [|] | | s m e]; try reflexivity;
    try destruct s; discriminate H.
Qed.

Lemma infinity_leb (x : float) : (infinity <=? x) = true -> x = infinity.
Proof.
  rewrite leb_spec. intros H. apply Prim2SF_inj.
  change (Prim2SF infinity) with (S754_infinity false) in *.
  destruct (Prim2SF x) as [s | [|] | | s m e]; try reflexivity;
    try destruct s; discriminate H.
Qed.

Lemma zeros_leb (x y : float) : is_zero x = true -> is_zero y = true -> (x <=? y) = true.
Proof.
  unfold is_zero. intros Hx Hy.
  apply (FloatOrder.leb_trans x 0 y).
  - apply FloatOrder.eqb_leb. exact Hx.
  - apply FloatOrder.eqb_leb. rewrite FloatOrder.eqb_sym. exact Hy.
Qed.

End FloatNaN.

(** * [Math.max] and [Math.min] on numbers *)

Section Scans.

Local Abbreviation max_step :=
  (fun highest number : float =>
     if is_pos_zero number && is_neg_zero highest then number
     else if highest <? number then number else highest).

Local Abbreviation min_step :=
  (fun lowest number : float =>
     if is_neg_zero number && is_pos_zero lowest then number
     else if number <? lowest then number else lowest).

Lemma max_step_facts (h x : float) :
  is_nan h = false -> is_nan x = false ->
  (max_step h x = h \/ max_step h x = x) /\
  (h <=? max_step h x) = true /\ (x <=? max_step h x) = true.
Proof.
  intros Nh Nx. cbv beta.
  destruct (is_pos_zero x && is_neg_zero h) eqn:Z.
  - apply andb_prop in Z. destruct Z as [Zx Zh].
    unfold is_pos_zero in Zx. unfold is_neg_zero in Zh.
    apply andb_prop in Zx. destruct Zx as [Zx _].
    apply andb_prop in Zh. destruct Zh as [Zh _].
    split; [right; reflexivity |]. split.
    + apply FloatNaN.zeros_leb; assumption.
    + apply FloatOrder.leb_refl. exact Nx.
  - destruct (h <? x) eqn:L.
    + split; [right; reflexivity |]. split.
      * apply FloatOrder.ltb_leb. exact L.
      * apply FloatOrder.leb_refl. exact Nx.
    + split; [left; reflexivity |]. split.
      * apply FloatOrder.leb_refl. exact Nh.
      * apply FloatOrder.not_ltb_leb; assumption.
Qed.

Lemma min_step_facts (l x : float) :
  is_nan l = false -> is_nan x = false ->
  (min_step l x = l \/ min_step l x = x) /\
  (min_step l x <=? l) = true /\ (min_step l x <=? x) = true.
Proof.
  intros Nl Nx. cbv beta.
  destruct (is_neg_zero x && is_pos_zero l) eqn:Z.
  - apply andb_prop in Z. destruct Z as [Zx Zl].
    unfold is_neg_zero in Zx. unfold is_pos_zero in Zl.
    apply andb_prop in Zx. destruct Zx as [Zx _].
    apply andb_prop in Zl. destruct Zl as [Zl _].
    split; [right; reflexivity |]. split.
    + apply FloatNaN.zeros_leb; assumption.
    + apply FloatOrder.leb_refl. exact Nx.
  - destruct (x <? l) eqn:L.
    + split; [right; reflexivity |]. split.
      * apply FloatOrder.ltb_leb. exact L.
      * apply FloatOrder.leb_refl. exact Nx.
    + split; [left; reflexivity |]. split.
      * apply FloatOrder.leb_refl. exact Nl.
      * apply FloatOrder.not_ltb_leb; assumption.
Qed.

Lemma max_scan (l : list float) :
  existsb is_nan l = false ->
  forall h, is_nan h = false ->
  is_nan (fold_left max_step l h) = false /\
  (h <=? fold_left max_step l h) = true /\
  (forall x, In x l -> (x <=? fold_left max_step l h) = true) /\
  (fold_left max_step l h = h \/ In (fold_left max_step l h) l).
Proof.
  induction l as [| x l IH]; intros Hn h Nh.
  - simpl. split; [exact Nh |]. split; [apply FloatOrder.leb_refl; exact Nh |].
    split; [intros x [] | left; reflexivity].
  - simpl in Hn. apply orb_false_elim in Hn. destruct Hn as [Nx Hn].
    destruct (max_step_facts h x Nh Nx) as [E [Hh Hx]].
    assert (Nr : is_nan (max_step h x) = false) by (destruct E as [-> | ->]; assumption).
    destruct (IH Hn _ Nr) as [N [B [U A]]].
    cbn [fold_left]. split; [exact N |]. split.
    + exact (FloatOrder.leb_trans _ _ _ Hh B).
    + split.
      * intros y [<- | Hy]; [exact (FloatOrder.leb_trans _ _ _ Hx B) | apply U; exact Hy].
      * destruct A as [A | A]; [| right; right; exact A].
        rewrite A. destruct E as [-> | ->]; [left; reflexivity | right; left; reflexivity].
Qed.

Lemma min_scan (l : list float) :
  existsb is_nan l = false ->
  forall h, is_nan h = false ->
  is_nan (fold_left min_step l h) = false /\
  (fold_left min_step l h <=? h) = true /\
  (forall x, In x l -> (fold_left min_step l h <=? x) = true) /\
  (fold_left min_step l h = h \/ In (fold_left min_step l h) l).
Proof.
  induction l as [| x l IH]; intros Hn h Nh.
  - simpl. split; [exact Nh |]. split; [apply FloatOrder.leb_refl; exact Nh |].
    split; [intros x [] | left; reflexivity].
  - simpl in Hn. apply orb_false_elim in Hn. destruct Hn as [Nx Hn].
    destruct (min_step_facts h x Nh Nx) as [E [Hh Hx]].
    assert (Nr : is_nan (min_step h x) = false) by (destruct E as [-> | ->]; assumption).
    destruct (IH Hn _ Nr) as [N [B [U A]]].
    cbn [fold_left]. split; [exact N |]. split.
    + exact (FloatOrder.leb_trans _ _ _ B Hh).
    + split.
      * intros y [<- | Hy]; [exact (FloatOrder.leb_trans _ _ _ B Hx) | apply U; exact Hy].
      * destruct A as [A | A]; [| right; right; exact A].
        rewrite A. destruct E as [-> | ->]; [left; reflexivity | right; left; reflexivity].
Qed.

(** [Math.max] of numbers is at least each of them, and one of them. *)
Lemma Math_max_bound (l : list float) :
  existsb is_nan l = false ->
  (forall x, In x l -> (x <=? Math_max l) = true) /\
  (l <> [] -> In (Math_max l) l).
Proof.
  intros Hn. unfold Math_max. rewrite Hn.
  destruct (max_scan l Hn neg_infinity eq_refl) as [_ [_ [U A]]].
  split; [exact U |]. intros Hne.
  destruct A as [A | A]; [| exact A].
  destruct l as [| x l]; [congruence |].
  pose proof (U x (or_introl eq_refl)) as Hx. rewrite A in Hx.
  apply FloatNaN.leb_neg_infinity in Hx. rewrite A, <- Hx. left. reflexivity.
Qed.

(** [Math.min] of numbers is at most each of them, and one of them. *)
Lemma Math_min_bound (l : list float) :
  existsb is_nan l = false ->
  (forall x, In x l -> (Math_min l <=? x) = true) /\
  (l <> [] -> In (Math_min l) l).
Proof.
  intros Hn. unfold Math_min. rewrite Hn.
  destruct (min_scan l Hn infinity eq_refl) as [_ [_ [U A]]].
  split; [exact U |]. intros Hne.
  destruct A as [A | A]; [| exact A].
  destruct l as [| x l]; [congruence |].
  pose proof (U x (or_introl eq_refl)) as Hx. rewrite A in Hx.
  apply FloatNaN.infinity_leb in Hx. rewrite A, <- Hx. left. reflexivity.
Qed.

Lemma Math_min_nan (l : list float) : existsb is_nan l = true -> Math_min l = nan.
Proof. intros H. unfold Math_min. rewrite H. reflexivity. Qed.

End Scans.

(** * The temperature component and its label *)

Section Temperature.

Local Abbreviation this := OrderPriorityCalculator.new.

Lemma tempScores_products (order : Order.t) :
  tempScores this order = map productTempScore (Order.products order).
Proof. reflexivity. Qed.

Lemma temperature_level_eqb (x y : float) :
  In x Levels.temperature -> In y Levels.temperature -> (x =? y) = true -> x = y.
Proof.
  unfold Levels.temperature. intros Hx Hy H.
  in_cases Hx; in_cases Hy; try reflexivity; vm_compute in H; discriminate H.
Qed.

(** The temperature score is at least the score of each product, and the
    score of one of them. *)
Lemma maxTempScore_bound (order : Order.t) :
  (forall p, In p (Order.products order) ->
     (productTempScore p <=? maxTempScore this order) = true) /\
  (Order.products order <> [] ->
   exists p, In p (Order.products order) /\ productTempScore p = maxTempScore this order).
Proof.
  destruct (Math_max_bound (tempScores this order)
              (level_not_nan _ (tempScores_levels order))) as [U A].
  fold (maxTempScore this order) in U, A. split.
  - intros p Hp. apply U. rewrite tempScores_products. apply in_map. exact Hp.
  - intros Hne.
    assert (Hn : tempScores this order <> []).
    { rewrite tempScores_products. destruct (Order.products order); [congruence | discriminate]. }
    specialize (A Hn). rewrite tempScores_products in A. apply in_map_iff in A.
    destruct A as [p [E Hp]]. exists p. split; assumption.
Qed.

(** The entry of the table the label is read from has the temperature score
    of the order as its score. *)
Lemma tempRequirement_score (order : Order.t) (requirement : TempRequirement.t) :
  Order.products order <> [] ->
  tempRequirement this order = Own requirement ->
  TempRequirement.score requirement = maxTempScore this order.
Proof.
  intros Hne. pose proof (maxTempScore_level order Hne) as Lm.
  unfold tempRequirement, tempRequirementKey, highestTempProduct.
  destruct (find _ (Order.products order)) as [p |] eqn:F.
  - apply find_some in F. destruct F as [_ S].
    destruct (tempScoreOf_cases (Product.category p)) as [E | [r [G [E Lr]]]];
      rewrite E in S; [discriminate S |].
    destruct (String.eqb (Product.category p) "") eqn:Q.
    + apply String.eqb_eq in Q. rewrite Q in G. discriminate G.
    + rewrite G. intros [= <-]. simpl in S.
      apply temperature_level_eqb; assumption.
  - intros G. vm_compute in G. injection G as <-. cbn [TempRequirement.score].
    destruct (maxTempScore_bound order) as [_ A]. destruct (A Hne) as [p [Hp E]].
    pose proof (find_none _ _ F p Hp) as S. cbv beta in S.
    unfold productTempScore in E.
    destruct (tempScoreOf_cases (Product.category p)) as [E' | [r [_ [E' Lr]]]];
      rewrite E' in E, S.
    + exact E.
    + exfalso. simpl in S.
      assert (T : or_default (Num (TempRequirement.score r)) 20 = Num (TempRequirement.score r)).
      { unfold Levels.temperature in Lr. in_cases Lr; rewrite <- Lr; reflexivity. }
      rewrite T in E. simpl in E. rewrite E in S.
      unfold Levels.temperature in Lm.
      in_cases Lm; rewrite <- Lm in S; vm_compute in S; discriminate S.
Qed.

End Temperature.

(** For an order that fits the engine, with at least one product, the label
    reported as the highest temperature requirement is the label of an entry
    of the table
    whose score is the temperature score of the order; that score is at
    least the temperature score of every product and is the temperature
    score of one of them. *)
Theorem temperature_label_matches_score {host : Host} (order : Order.t) :
  fits order ->
  Order.products order <> [] ->
  exists r key requirement,
    calculateOrderPriority new order = Return r /\
    get (tempRequirements new) key = Own requirement /\
    ScoredOrder.highest_temp_requirement r = Some (TempRequirement.label requirement) /\
    TempRequirement.score requirement = maxTempScore new order /\
    Breakdown.temperature (ScoredOrder.breakdown r)
    = TempRequirement.score requirement * 0.30 /\
    (forall p, In p (Order.products order) ->
       (productTempScore p <=? TempRequirement.score requirement) = true) /\
    (exists p, In p (Order.products order) /\
       productTempScore p = TempRequirement.score requirement).
Proof.
  intros Hf Hne.
  destruct (calculateOrderPriority_returns order Hf) as [r [requirement [Er [G ->]]]].
  pose proof (tempRequirement_score order requirement Hne G) as S.
  destruct (maxTempScore_bound order) as [U A].
  eexists. exists (tempRequirementKey new order), requirement.
  split; [exact Er |]. split; [exact G |]. split; [reflexivity |].
  split; [exact S |]. rewrite S. split; [reflexivity |].
  split; [exact U | exact (A Hne)].
Qed.

Lemma temperature_label_matches_score_witness :
  exists r key requirement,
    calculateOrderPriority (host := bangkok_host) new unrecognized_order = Return r /\
    get (tempRequirements new) key = Own requirement /\
    ScoredOrder.highest_temp_requirement r = Some (TempRequirement.label requirement) /\
    TempRequirement.score requirement = maxTempScore new unrecognized_order /\
    Breakdown.temperature (ScoredOrder.breakdown r)
    = TempRequirement.score requirement * 0.30 /\
    (forall p, In p (Order.products unrecognized_order) ->
       (productTempScore p <=? TempRequirement.score requirement) = true) /\
    (exists p, In p (Order.products unrecognized_order) /\
       productTempScore p = TempRequirement.score requirement).
Proof.
  apply (temperature_label_matches_score (host := bangkok_host) unrecognized_order);
    [reflexivity | discriminate].
Defined.

(** * Orders that are never classed low *)

Section Sensitive.

Local Abbreviation this := OrderPriorityCalculator.new.

Lemma sensitive_tempScore (p : Product.t) :
  In (Product.category p) sensitive ->
  (JS.of_Z 60 <=? productTempScore p) = true /\
  (Product.category p = "medicine" \/ (JS.of_Z 75 <=? productTempScore p) = true).
Proof.
  unfold sensitive, productTempScore. intros H.
  in_cases H; rewrite <- H; split;
    solve [reflexivity | left; reflexivity | right; reflexivity].
Qed.

Lemma medicine_fragilityScore (order : Order.t) (p : Product.t) :
  In p (Order.products order) -> Product.category p = "medicine" ->
  fragilityScore order = JS.of_Z 100.
Proof.
  intros Hp Hc. unfold fragilityScore, hasMedicine.
  replace (existsb _ (Order.products order)) with true; [reflexivity |].
  symmetry. apply existsb_exists. exists p. split; [exact Hp |].
  rewrite Hc. reflexivity.
Qed.

Lemma at_least_medium (s : float) :
  (40 <=? s) = true -> In (classifyPriority s) ["medium"; "high"; "critical"].
Proof.
  intros H. unfold classifyPriority.
  destruct (75 <=? s); [simpl; tauto |].
  destruct (60 <=? s); [simpl; tauto |].
  rewrite H. simpl. tauto.
Qed.

End Sensitive.

(** An order that fits the engine, that holds hot food, frozen or chilled
    goods, or medicine, and whose customer priority names no member of
    [Object.prototype], scores at least 40: it is classed medium, high or
    critical, never low. *)
Theorem sensitive_goods_at_least_medium {host : Host} (order : Order.t) (p : Product.t) :
  fits order ->
  inherited (Order.customer_priority order) = false ->
  In p (Order.products order) ->
  In (Product.category p) sensitive ->
  exists r,
    calculateOrderPriority new order = Return r /\
    (40 <=? ScoredOrder.priority_score r) = true /\
    In (ScoredOrder.priority_class r) ["medium"; "high"; "critical"].
Proof.
  intros Hfit Hc Hp Hs.
  destruct (calculateOrderPriority_returns order Hfit) as [r [label [Er [_ ->]]]].
  eexists. split; [exact Er |].
  cbn [ScoredOrder.priority_score ScoredOrder.priority_class].
  assert (Hne : Order.products order <> []) by (intros E; rewrite E in Hp; exact Hp).
  destruct (totalScore_components order Hne Hc)
    as [t [e [c [v [w [f [[It [Ie [Ic [Iv [Iw If]]]]]
         [[Et [Ee [Ec [Ev [Ew Ef]]]]] [K S]]]]]]]]].
  destruct (maxTempScore_bound order) as [U _]. specialize (U p Hp).
  destruct (sensitive_tempScore p Hs) as [L60 L].
  assert (B : (4000 <= Table.hundredths t e c v w f)%Z).
  { assert (Be : (30 <= e)%Z) by (unfold Table.expiration in Ie; simpl in Ie; lia).
    assert (Bc : (25 <= c)%Z) by (unfold Table.customer in Ic; simpl in Ic; lia).
    assert (Bv : (20 <= v)%Z) by (unfold Table.value in Iv; simpl in Iv; lia).
    assert (Bw : (30 <= w)%Z) by (unfold Table.window in Iw; simpl in Iw; lia).
    assert (Bf : (30 <= f)%Z) by (unfold Table.fragility in If; simpl in If; lia).
    assert (Lt : In t every_level) by (apply every_level_holds; tauto).
    assert (Lf : In f every_level) by (apply every_level_holds; tauto).
    rewrite Et in U. unfold Table.hundredths.
    destruct L as [M | L75].
    - pose proof (medicine_fragilityScore order p Hp M) as F. rewrite Ef in F.
      assert (B60 : (60 <= t)%Z).
      { apply level_order; [simpl; tauto | exact Lt |].
        exact (FloatOrder.leb_trans _ _ _ L60 U). }
      assert (B100 : (100 <= f)%Z).
      { apply level_order; [simpl; tauto | exact Lf |]. rewrite F. reflexivity. }
      lia.
    - assert (B75 : (75 <= t)%Z).
      { apply level_order; [simpl; tauto | exact Lt |].
        exact (FloatOrder.leb_trans _ _ _ L75 U). }
      lia. }
  assert (H40 : (40 <=? totalScore new order) = true).
  { rewrite S. change 40 with (Keys.of_key 4000).
    destruct (key_order_agrees (Table.hundredths t e c v w f) 4000 K
                (in_all_keys 4000 ltac:(lia) eq_refl)) as [_ [-> _]].
    apply Z.leb_le. exact B. }
  split; [exact H40 | apply at_least_medium; exact H40].
Qed.

Lemma sensitive_goods_at_least_medium_witness :
  exists r,
    calculateOrderPriority (host := bangkok_host) new perishable_order = Return r /\
    (40 <=? ScoredOrder.priority_score r) = true /\
    In (ScoredOrder.priority_class r) ["medium"; "high"; "critical"].
Proof.
  apply (sensitive_goods_at_least_medium (host := bangkok_host) perishable_order
           (Product.mk "P501" "sandwich" "chilled" 45 1 8)).
  - reflexivity.
  - reflexivity.
  - simpl. tauto.
  - simpl. tauto.
Defined.

(** * The expiration component *)

Section Expiration.

Lemma expirations_not_nan (order : Order.t) :
  expirations_are_numbers order -> existsb is_nan (expirations order) = false.
Proof.
  unfold expirations_are_numbers, expirations.
  induction 1 as [| p l Hp _ IH]; [reflexivity |].
  simpl. rewrite Hp, IH. reflexivity.
Qed.

Lemma expirations_nan (order : Order.t) (p : Product.t) :
  In p (Order.products order) -> is_nan (Product.expiration_hours p) = true ->
  existsb is_nan (expirations order) = true.
Proof.
  intros Hp Hn. apply existsb_exists. exists (Product.expiration_hours p).
  split; [apply in_map; exact Hp | exact Hn].
Qed.

End Expiration.

(** In an order that fits the engine, with at least one product, all
    expirations being numbers, one product has the least expiration: the
    order reports it as its
    earliest expiration and takes its expiration score from it, and no
    product alone would score higher. *)
Theorem most_perishable_product_decides {host : Host} (order : Order.t) :
  fits order ->
  Order.products order <> [] ->
  expirations_are_numbers order ->
  exists r p,
    calculateOrderPriority new order = Return r /\
    In p (Order.products order) /\
    ScoredOrder.earliest_expiration r = Product.expiration_hours p /\
    Breakdown.expiration (ScoredOrder.breakdown r)
    = scoreExpiration (Product.expiration_hours p) * 0.25 /\
    forall q, In q (Order.products order) ->
      (Product.expiration_hours p <=? Product.expiration_hours q) = true /\
      (scoreExpiration (Product.expiration_hours q)
       <=? scoreExpiration (Product.expiration_hours p)) = true.
Proof.
  intros Hf Hne Hn.
  destruct (calculateOrderPriority_returns order Hf) as [r [label [Er [_ ->]]]].
  destruct (Math_min_bound (expirations order) (expirations_not_nan order Hn)) as [U A].
  assert (Hne' : expirations order <> []).
  { unfold expirations. destruct (Order.products order); [congruence | discriminate]. }
  specialize (A Hne'). fold (minExpiration order) in U, A.
  unfold expirations in A. apply in_map_iff in A. destruct A as [p [E Hp]].
  eexists. exists p. split; [exact Er |]. split; [exact Hp |].
  cbn [ScoredOrder.earliest_expiration ScoredOrder.breakdown].
  split; [symmetry; exact E |]. split.
  - cbn [breakdown Breakdown.expiration]. unfold expirationScore. rewrite E. reflexivity.
  - intros q Hq.
    assert (L : (Product.expiration_hours p <=? Product.expiration_hours q) = true).
    { rewrite E. apply U. unfold expirations. apply in_map. exact Hq. }
    split; [exact L | apply scoreExpiration_antitone; exact L].
Qed.

Lemma most_perishable_product_decides_witness :
  exists r p,
    calculateOrderPriority (host := bangkok_host) new perishable_order = Return r /\
    In p (Order.products perishable_order) /\
    ScoredOrder.earliest_expiration r = Product.expiration_hours p /\
    Breakdown.expiration (ScoredOrder.breakdown r)
    = scoreExpiration (Product.expiration_hours p) * 0.25 /\
    forall q, In q (Order.products perishable_order) ->
      (Product.expiration_hours p <=? Product.expiration_hours q) = true /\
      (scoreExpiration (Product.expiration_hours q)
       <=? scoreExpiration (Product.expiration_hours p)) = true.
Proof.
  apply (most_perishable_product_decides (host := bangkok_host) perishable_order).
  - reflexivity.
  - discriminate.
  - repeat constructor.
Defined.

(** * Numbers that are missing *)

Section Missing.

Lemma totalValue_nan (l : list Product.t) :
  fold_left (fun sum p => sum + Product.price p * Product.quantity p) l nan = nan.
Proof.
  induction l as [| a l IH]; [reflexivity |].
  simpl. rewrite FloatNaN.add_nan_l. exact IH.
Qed.

Lemma totalValue_unpriced (l : list Product.t) (p : Product.t) :
  In p l ->
  is_nan (Product.price p) = true \/ is_nan (Product.quantity p) = true ->
  forall acc,
    fold_left (fun sum p => sum + Product.price p * Product.quantity p) l acc = nan.
Proof.
  intros Hp Hn.
  assert (E : Product.price p * Product.quantity p = nan).
  { destruct Hn as [Hn | Hn]; apply FloatOrder.is_nan_eq in Hn; rewrite Hn.
    - apply FloatNaN.mul_nan_l.
    - apply FloatNaN.mul_nan_r. }
  induction l as [| a l IH]; intros acc; [destruct Hp |].
  destruct Hp as [-> | Hp].
  - simpl. rewrite E, FloatNaN.add_nan_r. apply totalValue_nan.
  - simpl. apply IH. exact Hp.
Qed.

Lemma minutesRemaining_undated {host : Host} (order : Order.t) :
  is_nan (getTime (Order.order_time order)) = true \/
  is_nan (getTime (Order.delivery_window_end order)) = true ->
  minutesRemaining order = nan.
Proof.
  unfold minutesRemaining, deliveryEnd, now.
  intros [H | H]; apply FloatOrder.is_nan_eq in H; rewrite H.
  - rewrite FloatNaN.sub_nan_r. apply FloatNaN.div_nan_l.
  - rewrite FloatNaN.sub_nan_l. apply FloatNaN.div_nan_l.
Qed.

End Missing.

(** In an order that fits the engine, a product whose expiration is NaN
    makes the earliest expiration of the order NaN, and the expiration score
    the lowest one, 30, whatever the other products. *)
Theorem missing_expiration_scores_lowest {host : Host} (order : Order.t) (p : Product.t) :
  fits order ->
  In p (Order.products order) ->
  is_nan (Product.expiration_hours p) = true ->
  exists r,
    calculateOrderPriority new order = Return r /\
    ScoredOrder.earliest_expiration r = nan /\
    expirationScore order = 30 /\
    Breakdown.expiration (ScoredOrder.breakdown r) = 30 * 0.25.
Proof.
  intros Hf Hp Hn.
  destruct (calculateOrderPriority_returns order Hf) as [r [label [Er [_ ->]]]].
  eexists. split; [exact Er |].
  cbn [ScoredOrder.earliest_expiration ScoredOrder.breakdown breakdown Breakdown.expiration].
  unfold expirationScore, minExpiration.
  rewrite (Math_min_nan _ (expirations_nan order p Hp Hn)).
  repeat split.
Qed.

Lemma missing_expiration_scores_lowest_witness :
  exists r,
    calculateOrderPriority (host := bangkok_host) new missing_expiration_order
    = Return r /\
    ScoredOrder.earliest_expiration r = nan /\
    expirationScore missing_expiration_order = 30 /\
    Breakdown.expiration (ScoredOrder.breakdown r) = 30 * 0.25.
Proof.
  apply (missing_expiration_scores_lowest (host := bangkok_host) missing_expiration_order
           (Product.mk "P504" "water" "beverage" 10 2 nan)).
  - reflexivity.
  - simpl. tauto.
  - reflexivity.
Defined.

(** In an order that fits the engine, a product whose price or quantity is
    NaN makes the total value of the order NaN, and the value score the
    lowest one, 20, whatever the other products are worth. *)
Theorem unpriced_product_scores_lowest {host : Host} (order : Order.t) (p : Product.t) :
  fits order ->
  In p (Order.products order) ->
  is_nan (Product.price p) = true \/ is_nan (Product.quantity p) = true ->
  exists r,
    calculateOrderPriority new order = Return r /\
    ScoredOrder.total_value r = nan /\
    valueScore order = 20 /\
    Breakdown.value (ScoredOrder.breakdown r) = 20 * 0.10.
Proof.
  intros Hf Hp Hn.
  destruct (calculateOrderPriority_returns order Hf) as [r [label [Er [_ ->]]]].
  eexists. split; [exact Er |].
  cbn [ScoredOrder.total_value ScoredOrder.breakdown breakdown Breakdown.value].
  unfold valueScore, totalValue.
  rewrite (totalValue_unpriced _ p Hp Hn).
  repeat split.
Qed.

Lemma unpriced_product_scores_lowest_witness :
  exists r,
    calculateOrderPriority (host := bangkok_host) new unpriced_order = Return r /\
    ScoredOrder.total_value r = nan /\
    valueScore unpriced_order = 20 /\
    Breakdown.value (ScoredOrder.breakdown r) = 20 * 0.10.
Proof.
  apply (unpriced_product_scores_lowest (host := bangkok_host) unpriced_order
           (Product.mk "P506" "candles" "daily_goods" nan 2 8760)).
  - reflexivity.
  - simpl. tauto.
  - left. reflexivity.
Defined.

(** An order that fits the engine, and whose order time or whose end of the
    delivery window is no date (its time value is NaN), reports NaN minutes
    until the deadline and gets the lowest score for the delivery window,
    30. *)
Theorem undated_order_scores_lowest {host : Host} (order : Order.t) :
  fits order ->
  is_nan (getTime (Order.order_time order)) = true \/
  is_nan (getTime (Order.delivery_window_end order)) = true ->
  exists r,
    calculateOrderPriority new order = Return r /\
    ScoredOrder.minutes_until_deadline r = nan /\
    windowScore order = 30 /\
    Breakdown.delivery_window (ScoredOrder.breakdown r) = 30 * 0.15.
Proof.
  intros Hf Hn.
  destruct (calculateOrderPriority_returns order Hf) as [r [label [Er [_ ->]]]].
  eexists. split; [exact Er |].
  cbn [ScoredOrder.minutes_until_deadline ScoredOrder.breakdown breakdown
       Breakdown.delivery_window].
  unfold windowScore. rewrite (minutesRemaining_undated order Hn).
  repeat split.
Qed.

Lemma undated_order_scores_lowest_witness :
  exists r,
    calculateOrderPriority (host := bangkok_host) new undated_order = Return r /\
    ScoredOrder.minutes_until_deadline r = nan /\
    windowScore (host := bangkok_host) undated_order = 30 /\
    Breakdown.delivery_window (ScoredOrder.breakdown r) = 30 * 0.15.
Proof.
  apply (undated_order_scores_lowest (host := bangkok_host) undated_order);
    [reflexivity | right; reflexivity].
Defined.

(** * The bands of the classification, and the summary of [POST] *)

Section Bands.

Lemma thresholds (s : float) :
  ((75 <=? s) = true -> (60 <=? s) = true) /\ ((60 <=? s) = true -> (40 <=? s) = true).
Proof.
  split; intros H.
  - exact (FloatOrder.leb_trans 60 75 s eq_refl H).
  - exact (FloatOrder.leb_trans 40 60 s eq_refl H).
Qed.

(** The class of a score names its band. *)
Lemma classifyPriority_bands (s : float) :
  String.eqb (classifyPriority s) "critical" = Band.critical s /\
  String.eqb (classifyPriority s) "high" = Band.high s /\
  String.eqb (classifyPriority s) "medium" = Band.medium s /\
  String.eqb (classifyPriority s) "low" = Band.low s.
Proof.
  destruct (thresholds s) as [T1 T2].
  unfold classifyPriority, Band.critical, Band.high, Band.medium, Band.low.
  destruct (75 <=? s) eqn:A.
  - rewrite (T1 eq_refl), (T2 (T1 eq_refl)). repeat split.
  - destruct (60 <=? s) eqn:B.
    + rewrite (T2 eq_refl). repeat split.
    + destruct (40 <=? s); repeat split.
Qed.

(** Every number, NaN too, lies in one band. *)
Lemma one_band (s : float) :
  ((if Band.critical s then 1 else 0) + (if Band.high s then 1 else 0)
   + (if Band.medium s then 1 else 0) + (if Band.low s then 1 else 0) = 1)%nat.
Proof.
  destruct (thresholds s) as [T1 T2].
  unfold Band.critical, Band.high, Band.medium, Band.low.
  destruct (75 <=? s) eqn:A.
  - rewrite (T1 eq_refl), (T2 (T1 eq_refl)). reflexivity.
  - destruct (60 <=? s) eqn:B.
    + rewrite (T2 eq_refl). reflexivity.
    + destruct (40 <=? s); reflexivity.
Qed.

Lemma bands_partition {A : Type} (sc : A -> float) (l : list A) :
  (List.length (filter (fun x => Band.critical (sc x)) l)
   + List.length (filter (fun x => Band.high (sc x)) l)
   + List.length (filter (fun x => Band.medium (sc x)) l)
   + List.length (filter (fun x => Band.low (sc x)) l)
   = List.length l)%nat.
Proof.
  induction l as [| x l IH]; [reflexivity |].
  pose proof (one_band (sc x)) as O. simpl.
  destruct (Band.critical (sc x)), (Band.high (sc x)), (Band.medium (sc x)),
    (Band.low (sc x)); simpl in *; lia.
Qed.

End Bands.

Section SummaryOfPOST.

Context {host : Host}.

Local Abbreviation classified :=
  (fun r : ScoredOrder.t =>
     ScoredOrder.priority_class r = classifyPriority (ScoredOrder.priority_score r)).

Lemma results_classified (orders : list Order.t) (results : list ScoredOrder.t) :
  Forall2 (fun o r => calculateOrderPriority new o = Return r) orders results ->
  Forall classified results.
Proof.
  induction 1 as [| o r orders results Hr _ IH]; constructor; [| exact IH].
  destruct (calculateOrderPriority_returns o (calculateOrderPriority_fits o r Hr))
    as [r' [label [Er [_ ->]]]].
  rewrite Er in Hr. injection Hr as <-. reflexivity.
Qed.

Lemma forEach_rank_classified (l : list ScoredOrder.t) :
  Forall classified l -> forall index, Forall classified (Route.forEach_rank index l).
Proof.
  induction 1 as [| r l Hr _ IH]; intros index; constructor; [exact Hr | apply IH].
Qed.

Lemma count_class_band (l : list ScoredOrder.t) :
  Forall classified l ->
  Route.count_class "critical" l
  = List.length (filter (fun r => Band.critical (ScoredOrder.priority_score r)) l) /\
  Route.count_class "high" l
  = List.length (filter (fun r => Band.high (ScoredOrder.priority_score r)) l) /\
  Route.count_class "medium" l
  = List.length (filter (fun r => Band.medium (ScoredOrder.priority_score r)) l) /\
  Route.count_class "low" l
  = List.length (filter (fun r => Band.low (ScoredOrder.priority_score r)) l).
Proof.
  intros F. rewrite Forall_forall in F. unfold Route.count_class.
  repeat split; f_equal; apply filter_ext_in; intros r Hr; rewrite (F r Hr);
    apply classifyPriority_bands.
Qed.

End SummaryOfPOST.

(** For every batch of orders that fit the engine the four counts of the
    summary add up to the number of orders, which is [total_orders]; each
    count is the number of results whose score lies in the band of the class,
    a score that is NaN or [-Infinity] counting as low. *)
Theorem summary_counts_every_order {host : Host} (orders : list Order.t) :
  Forall fits orders ->
  exists sorted summary,
    Route.POST (Return (Route.NotNull
                  {| Route.orders := Route.OrdersArray (map Route.AnOrder orders) |}))
    = Route.json (Route.Success true (List.length orders) sorted summary) 200 /\
    (Route.critical summary + Route.high summary + Route.medium summary
     + Route.low summary = List.length orders)%nat /\
    Route.critical summary
    = List.length (filter (fun r => Band.critical (ScoredOrder.priority_score r)) sorted) /\
    Route.high summary
    = List.length (filter (fun r => Band.high (ScoredOrder.priority_score r)) sorted) /\
    Route.medium summary
    = List.length (filter (fun r => Band.medium (ScoredOrder.priority_score r)) sorted) /\
    Route.low summary
    = List.length (filter (fun r => Band.low (ScoredOrder.priority_score r)) sorted).
Proof.
  intros Hf. destruct (POST_on_array orders Hf) as [results [F E]]. cbv zeta in E.
  assert (L : List.length (Route.forEach_rank 0 (Array_sort Route.by_priority_score results))
              = List.length orders).
  { rewrite forEach_rank_length.
    rewrite <- (Permutation_length (Array_sort_Permutation Route.by_priority_score results)).
    symmetry. eapply Forall2_length_eq. exact F. }
  assert (C : Forall (fun r => ScoredOrder.priority_class r
                               = classifyPriority (ScoredOrder.priority_score r))
                (Route.forEach_rank 0 (Array_sort Route.by_priority_score results))).
  { apply forEach_rank_classified.
    apply (Permutation_Forall (Array_sort_Permutation Route.by_priority_score results)).
    eapply results_classified. exact F. }
  destruct (count_class_band _ C) as [C1 [C2 [C3 C4]]].
  eexists. eexists. split; [rewrite E, L; reflexivity |].
  cbn [Route.critical Route.high Route.medium Route.low].
  rewrite C1, C2, C3, C4. split; [| repeat split].
  rewrite <- L. apply bands_partition.
Qed.

Lemma summary_counts_every_order_witness :
  exists sorted summary,
    Route.POST (host := bangkok_host)
      (Return (Route.NotNull
         {| Route.orders := Route.OrdersArray (map Route.AnOrder mixed_batch) |}))
    = Route.json (Route.Success true 4 sorted summary) 200 /\
    (Route.critical summary + Route.high summary + Route.medium summary
     + Route.low summary = 4)%nat /\
    Route.critical summary
    = List.length (filter (fun r => Band.critical (ScoredOrder.priority_score r)) sorted) /\
    Route.high summary
    = List.length (filter (fun r => Band.high (ScoredOrder.priority_score r)) sorted) /\
    Route.medium summary
    = List.length (filter (fun r => Band.medium (ScoredOrder.priority_score r)) sorted) /\
    Route.low summary
    = List.length (filter (fun r => Band.low (ScoredOrder.priority_score r)) sorted).
Proof.
  apply (summary_counts_every_order (host := bangkok_host) mixed_batch).
  repeat constructor.
Defined.

(** What [POST] answers, by the request. It answers 200 exactly when the body
    holds an array whose elements are orders that fit the engine; 400, with
    the error that asks for an array, exactly when the body is not [null] and
    its [orders] is missing or no array; and 500, with the internal error,
    in the cases that are left: the body cannot be read, it is [null], or the
    array holds an element that is no order or an order with more products
    than the engine accepts arguments. *)
Theorem POST_status {host : Host} (request_json : Completion Route.Json) :
  (Route.status (Route.POST request_json) = 200%Z <->
   exists orders,
     Forall fits orders /\
     request_json
     = Return (Route.NotNull
                 {| Route.orders := Route.OrdersArray (map Route.AnOrder orders) |})) /\
  (Route.POST request_json
   = Route.json (Route.Failure "Invalid request: orders array required") 400 <->
   request_json = Return (Route.NotNull {| Route.orders := Route.NoOrders |}) \/
   request_json = Return (Route.NotNull {| Route.orders := Route.NotAnArray |})) /\
  (Route.POST request_json = Route.json (Route.Failure "Internal server error") 500 <->
   (exists error, request_json = Throw error) \/
   request_json = Return Route.Null \/
   exists elements,
     forallb scorable elements = false /\
     request_json
     = Return (Route.NotNull {| Route.orders := Route.OrdersArray elements |})) /\
  In (Route.status (Route.POST request_json)) [200; 400; 500]%Z.
Proof.
  destruct request_json as [[| [[| | elements]]] | error].
  - (* the body is null *)
    split; [| split; [| split]]; simpl; [| | | tauto].
    + split; [discriminate | intros [x [_ H]]; discriminate H].
    + split; [discriminate | intros [H | H]; discriminate H].
    + split; [intros _; right; left; reflexivity | reflexivity].
  - (* no orders *)
    split; [| split; [| split]]; simpl; [| | | tauto].
    + split; [discriminate | intros [x [_ H]]; discriminate H].
    + split; [intros _; left; reflexivity | reflexivity].
    + split; [discriminate |].
      intros [[x H] | [H | [x [_ H]]]]; discriminate H.
  - (* orders is no array *)
    split; [| split; [| split]]; simpl; [| | | tauto].
    + split; [discriminate | intros [x [_ H]]; discriminate H].
    + split; [intros _; right; reflexivity | reflexivity].
    + split; [discriminate |].
      intros [[x H] | [H | [x [_ H]]]]; discriminate H.
  - (* an array *)
    pose proof (mapM_calculate elements) as M.
    unfold Route.POST. cbn [Route.orders].
    destruct (forallb scorable elements) eqn:S.
    + destruct M as [orders [results [-> [F E]]]]. rewrite E. cbn [Route.status].
      split; [| split; [| split]]; [| | | simpl; tauto].
      * split; [intros _; exists orders; split; [exact F | reflexivity] | reflexivity].
      * split; [discriminate | intros [H | H]; discriminate H].
      * split; [discriminate |].
        intros [[x H] | [H | [x [N H]]]]; try discriminate H.
        injection H as <-. rewrite S in N. discriminate N.
    + destruct M as [error E]. rewrite E. cbn [Route.status].
      split; [| split; [| split]]; [| | | simpl; tauto].
      * split; [discriminate |]. intros [orders [F H]]. injection H as ->.
        exfalso. revert S. clear - F.
        induction F as [| o orders Ho _ IH]; [discriminate |].
        simpl. unfold fits in Ho. rewrite Ho. exact IH.
      * split; [discriminate | intros [H | H]; discriminate H].
      * split; [| reflexivity]. intros _. right. right. exists elements.
        split; [exact S | reflexivity].
  - (* the body cannot be read *)
    split; [| split; [| split]]; simpl; [| | | tauto].
    + split; [discriminate | intros [x [_ H]]; discriminate H].
    + split; [discriminate | intros [H | H]; discriminate H].
    + split; [intros _; left; exists error; reflexivity | reflexivity].
Qed.

(** * The dashboard: the two states of the first effect *)

Section Effect.











End Effect.


(** * The dashboard: the summary *)

Section SummaryOfPage.

Local Abbreviation scored :=
  (fun s : Page.Order => exists sc,
     Page.priority_class s = Some (classifyPriority sc) /\ Page.score_or_zero s = sc).





End SummaryOfPage.


(** * The dashboard: the rows of the list *)


(** * The dashboard: the time that remains *)

Section TimeRemaining.

Lemma forall_from_spec (P : Z -> bool) (count : nat) (start : Z) :
  forall_from count start P = true ->
  forall m, (start <= m < start + Z.of_nat count)%Z -> P m = true.
Proof.
  revert start. induction count as [| count IH]; intros start H m Hm; [lia |].
  simpl in H. apply andb_prop in H. destruct H as [H0 H].
  destruct (Z.eq_dec m start) as [-> | Hne]; [exact H0 |].
  apply (IH (start + 1)%Z H). lia.
Qed.

Lemma week_minutes_exact : forall_from week 0 minutes_exact = true.
Proof. vm_compute. reflexivity. Qed.

Lemma minutesLeft_nan (currentTime deliveryEnd : float) :
  is_nan deliveryEnd = true \/ is_nan currentTime = true ->
  Dashboard.minutesLeft currentTime deliveryEnd = nan.
Proof.
  unfold Dashboard.minutesLeft.
  intros [H | H]; apply FloatOrder.is_nan_eq in H; rewrite H.
  - rewrite FloatNaN.sub_nan_l, FloatNaN.div_nan_l. reflexivity.
  - rewrite FloatNaN.sub_nan_r, FloatNaN.div_nan_l. reflexivity.
Qed.

End TimeRemaining.

(** A delivery is shown as urgent exactly when at most 15 whole minutes
    remain, an overdue delivery included. *)
Theorem urgent_within_quarter_hour (Number_toString : float -> string)
    (currentTime deliveryEnd : float) :
  Dashboard.urgent (Dashboard.getTimeRemaining Number_toString currentTime deliveryEnd)
  = (Dashboard.minutesLeft currentTime deliveryEnd <=? 15).
Proof.
  unfold Dashboard.getTimeRemaining. cbv zeta.
  destruct (Dashboard.minutesLeft currentTime deliveryEnd <=? 0) eqn:A.
  - rewrite (FloatOrder.leb_trans _ 0 15 A eq_refl). reflexivity.
  - destruct (Dashboard.minutesLeft currentTime deliveryEnd <=? 15); [reflexivity |].
    destruct (Dashboard.minutesLeft currentTime deliveryEnd <=? 60); reflexivity.
Qed.

(** A delivery window that is no date is shown as not urgent, with NaN hours
    and NaN minutes remaining; so is every delivery while the current time is
    no date. *)
Theorem unparsable_deadline_is_not_urgent (Number_toString : float -> string)
    (currentTime deliveryEnd : float) :
  is_nan deliveryEnd = true \/ is_nan currentTime = true ->
  Dashboard.getTimeRemaining Number_toString currentTime deliveryEnd
  = {| Dashboard.text := Number_toString nan ++ " ชม. " ++ Number_toString nan ++ " นาที";
       Dashboard.urgent := false |}.
Proof.
  intros H. unfold Dashboard.getTimeRemaining.
  rewrite (minutesLeft_nan currentTime deliveryEnd H). reflexivity.
Qed.

Lemma unparsable_deadline_is_not_urgent_witness :
  Dashboard.getTimeRemaining (fun _ => "NaN") 1700000000000 nan
  = {| Dashboard.text := "NaN ชม. NaN นาที"; Dashboard.urgent := false |}.
Proof.
  apply (unparsable_deadline_is_not_urgent (fun _ => "NaN") 1700000000000 nan).
  left. reflexivity.
Defined.

(** When a whole number of minutes, at most a week, remains, the time shown
    is that of the integer: overdue at 0, the minutes up to 60 (urgent up to
    15), and beyond that the quotient and the remainder of the division by
    60 as hours and minutes. *)
Theorem time_remaining_on_whole_minutes (Number_toString : float -> string)
    (currentTime deliveryEnd : float) (m : Z) :
  Dashboard.minutesLeft currentTime deliveryEnd = JS.of_Z m ->
  (0 <= m <= 10080)%Z ->
  Dashboard.getTimeRemaining Number_toString currentTime deliveryEnd
  = timeRemaining_of_minutes Number_toString m.
Proof.
  intros E Hm.
  assert (X : minutes_exact m = true).
  { apply (forall_from_spec minutes_exact week 0 week_minutes_exact).
    unfold week. rewrite Z2Nat.id; lia. }
  unfold minutes_exact in X.
  apply andb_prop in X. destruct X as [X Rm].
  apply andb_prop in X. destruct X as [X Fl].
  apply andb_prop in X. destruct X as [X T60].
  apply andb_prop in X. destruct X as [T0 T15].
  apply Bool.eqb_prop in T0, T15, T60.
  apply FloatAxioms.Leibniz.eqb_spec in Fl, Rm.
  unfold Dashboard.getTimeRemaining, timeRemaining_of_minutes. cbv zeta.
  rewrite E, T0, T15, T60, Fl, Rm.
  destruct (m <=? 0)%Z eqn:A; [reflexivity |].
  destruct (m <=? 15)%Z eqn:B, (m <=? 60)%Z eqn:C; try reflexivity.
  apply Z.leb_le in B. apply Z.leb_gt in C. lia.
Qed.

Lemma time_remaining_on_whole_minutes_witness :
  Dashboard.getTimeRemaining (fun _ => "n") 1700000000000 1700007500000
  = timeRemaining_of_minutes (fun _ => "n") 125.
Proof.
  apply (time_remaining_on_whole_minutes (fun _ => "n") 1700000000000 1700007500000 125).
  - reflexivity.
  - lia.
Defined.

(** * [POST] on every batch *)

Section EveryBatch.

Lemma sum_of_scores_nan (l : list ScoredOrder.t) :
  fold_left (fun sum o => sum + ScoredOrder.priority_score o) l nan = nan.
Proof.
  induction l as [| a l IH]; [reflexivity |].
  simpl. rewrite FloatNaN.add_nan_l. exact IH.
Qed.

Lemma sum_of_scores_poisoned (l : list ScoredOrder.t) (r : ScoredOrder.t) :
  In r l -> ScoredOrder.priority_score r = nan ->
  forall acc, fold_left (fun sum o => sum + ScoredOrder.priority_score o) l acc = nan.
Proof.
  intros Hr En. induction l as [| a l IH]; intros acc; [destruct Hr |].
  destruct Hr as [-> | Hr].
  - simpl. rewrite En, FloatNaN.add_nan_r. apply sum_of_scores_nan.
  - simpl. apply IH. exact Hr.
Qed.

Lemma Forall2_In_l {A B : Type} (R : A -> B -> Prop) (l : list A) (l' : list B) (a : A) :
  Forall2 R l l' -> In a l -> exists b, In b l' /\ R a b.
Proof.
  induction 1 as [| x y l l' Hxy _ IH]; intros Ha; [destruct Ha |].
  destruct Ha as [-> | Ha].
  - exists y. split; [left; reflexivity | exact Hxy].
  - destruct (IH Ha) as [b [Hb Hab]]. exists b. split; [right; exact Hb | exact Hab].
Qed.

Lemma forEach_rank_In_score (l : list ScoredOrder.t) (r : ScoredOrder.t) (index : nat) :
  In r l ->
  exists r', In r' (Route.forEach_rank index l) /\
             ScoredOrder.priority_score r' = ScoredOrder.priority_score r.
Proof.
  revert index. induction l as [| a l IH]; intros index Hr; [destruct Hr |].
  destruct Hr as [-> | Hr].
  - eexists. split; [left; reflexivity | reflexivity].
  - destruct (IH (S index) Hr) as [r' [Hr' E]]. exists r'. split; [right; exact Hr' | exact E].
Qed.

End EveryBatch.

(** For every batch of orders that fit the engine the response holds the
    result of each order once, in some order, numbered 1..N, whatever the
    scores are. *)
Theorem POST_ranks_every_result {host : Host} (orders : list Order.t) :
  Forall fits orders ->
  exists results sorted summary,
    Forall2 (fun o r => calculateOrderPriority new o = Return r) orders results /\
    Permutation results sorted /\
    Route.POST (Return (Route.NotNull
                  {| Route.orders := Route.OrdersArray (map Route.AnOrder orders) |}))
    = Route.json
        (Route.Success true (List.length orders) (Route.forEach_rank 0 sorted) summary) 200 /\
    Route.forEach_rank 0 sorted
    = map (fun p => Route.set_suggested_delivery_order (fst p) (snd p))
          (combine sorted (seq 1 (List.length orders))) /\
    map ScoredOrder.suggested_delivery_order (Route.forEach_rank 0 sorted)
    = map Some (seq 1 (List.length orders)).
Proof.
  intros Hf. destruct (POST_on_array orders Hf) as [results [F E]]. cbv zeta in E.
  pose proof (Array_sort_Permutation Route.by_priority_score results) as P.
  assert (L : List.length (Array_sort Route.by_priority_score results) = List.length orders).
  { rewrite <- (Permutation_length P). symmetry. eapply Forall2_length_eq. exact F. }
  exists results, (Array_sort Route.by_priority_score results). eexists.
  split; [exact F |]. split; [exact P |]. split.
  - rewrite E, forEach_rank_length, L. reflexivity.
  - split.
    + rewrite forEach_rank_spec, L. reflexivity.
    + rewrite forEach_rank_numbers, L. reflexivity.
Qed.

Lemma POST_ranks_every_result_witness :
  exists results sorted summary,
    Forall2 (fun o r => calculateOrderPriority (host := bangkok_host) new o = Return r)
      mixed_batch results /\
    Permutation results sorted /\
    Route.POST (host := bangkok_host)
      (Return (Route.NotNull
         {| Route.orders := Route.OrdersArray (map Route.AnOrder mixed_batch) |}))
    = Route.json
        (Route.Success true 4 (Route.forEach_rank 0 sorted) summary) 200 /\
    Route.forEach_rank 0 sorted
    = map (fun p => Route.set_suggested_delivery_order (fst p) (snd p))
          (combine sorted [1; 2; 3; 4]%nat) /\
    map ScoredOrder.suggested_delivery_order (Route.forEach_rank 0 sorted)
    = [Some 1; Some 2; Some 3; Some 4]%nat.
Proof.
  apply (POST_ranks_every_result (host := bangkok_host) mixed_batch).
  repeat constructor.
Defined.

(** In a batch of orders that fit the engine, one order whose customer
    priority names a member of [Object.prototype] makes the average score of
    the whole batch NaN. *)
Theorem inherited_priority_poisons_average {host : Host} (orders : list Order.t)
    (o : Order.t) :
  Forall fits orders ->
  In o orders ->
  inherited (Order.customer_priority o) = true ->
  exists sorted summary,
    Route.POST (Return (Route.NotNull
                  {| Route.orders := Route.OrdersArray (map Route.AnOrder orders) |}))
    = Route.json (Route.Success true (List.length orders) sorted summary) 200 /\
    Route.avg_score summary = nan.
Proof.
  intros Hf Ho Hc. destruct (POST_on_array orders Hf) as [results [F E]]. cbv zeta in E.
  assert (L : List.length (Route.forEach_rank 0 (Array_sort Route.by_priority_score results))
              = List.length orders).
  { rewrite forEach_rank_length.
    rewrite <- (Permutation_length (Array_sort_Permutation Route.by_priority_score results)).
    symmetry. eapply Forall2_length_eq. exact F. }
  eexists. eexists. split; [rewrite E, L; reflexivity |].
  cbn [Route.avg_score].
  destruct (Forall2_In_l _ _ _ o F Ho) as [r [Hr Er]].
  destruct (calculateOrderPriority_returns o (calculateOrderPriority_fits o r Er))
    as [r' [label [Er' [_ Eq]]]].
  rewrite Er in Er'. injection Er' as <-.
  destruct (totalScore_poisoned o Hc) as [En _].
  assert (Sr : ScoredOrder.priority_score r = nan) by (rewrite Eq; exact En).
  pose proof (Permutation_in r (Array_sort_Permutation Route.by_priority_score results) Hr)
    as Hs.
  destruct (forEach_rank_In_score _ r 0 Hs) as [r' [Hr' E']].
  rewrite (sum_of_scores_poisoned _ r' Hr' (eq_trans E' Sr)).
  apply FloatNaN.div_nan_l.
Qed.

Lemma inherited_priority_poisons_average_witness :
  exists sorted summary,
    Route.POST (host := bangkok_host)
      (Return (Route.NotNull
         {| Route.orders := Route.OrdersArray (map Route.AnOrder mixed_batch) |}))
    = Route.json (Route.Success true 4 sorted summary) 200 /\
    Route.avg_score summary = nan.
Proof.
  apply (inherited_priority_poisons_average (host := bangkok_host) mixed_batch
           inherited_priority_order).
  - repeat constructor.
  - simpl. tauto.
  - reflexivity.
Defined.

(** * The shares of the breakdown *)

(** For an order that fits the engine, with at least one product and a
    customer priority that names no member of [Object.prototype], each entry
    of the breakdown lies between 0 and the share of its weight in 100: 30,
    25, 15, 10, 15 and 5. *)
Theorem breakdown_within_weights {host : Host} (order : Order.t) :
  fits order ->
  Order.products order <> [] ->
  inherited (Order.customer_priority order) = false ->
  exists r,
    calculateOrderPriority new order = Return r /\
    ((0 <=? Breakdown.temperature (ScoredOrder.breakdown r)) = true /\
     (Breakdown.temperature (ScoredOrder.breakdown r) <=? 30) = true) /\
    ((0 <=? Breakdown.expiration (ScoredOrder.breakdown r)) = true /\
     (Breakdown.expiration (ScoredOrder.breakdown r) <=? 25) = true) /\
    ((0 <=? Breakdown.customer_priority (ScoredOrder.breakdown r)) = true /\
     (Breakdown.customer_priority (ScoredOrder.breakdown r) <=? 15) = true) /\
    ((0 <=? Breakdown.value (ScoredOrder.breakdown r)) = true /\
     (Breakdown.value (ScoredOrder.breakdown r) <=? 10) = true) /\
    ((0 <=? Breakdown.delivery_window (ScoredOrder.breakdown r)) = true /\
     (Breakdown.delivery_window (ScoredOrder.breakdown r) <=? 15) = true) /\
    ((0 <=? Breakdown.fragility (ScoredOrder.breakdown r)) = true /\
     (Breakdown.fragility (ScoredOrder.breakdown r) <=? 5) = true).
Proof.
  intros Hfit Hne Hc.
  destruct (calculateOrderPriority_returns order Hfit) as [r [label [Er [_ ->]]]].
  eexists. split; [exact Er |].
  cbn [ScoredOrder.breakdown breakdown Breakdown.temperature Breakdown.expiration
       Breakdown.customer_priority Breakdown.value Breakdown.delivery_window
       Breakdown.fragility].
  pose proof (maxTempScore_level order Hne) as Lt.
  pose proof (expirationScore_level order) as Le.
  pose proof (customerScore_plain order Hc) as Lc.
  pose proof (valueScore_level order) as Lv.
  pose proof (windowScore_level order) as Lw.
  pose proof (fragilityScore_level order) as Lf.
  unfold Levels.temperature in Lt. unfold Levels.expiration in Le.
  unfold Levels.value in Lv. unfold Levels.window in Lw. unfold Levels.fragility in Lf.
  split; [in_cases Lt; rewrite <- Lt; split; reflexivity |].
  split; [in_cases Le; rewrite <- Le; split; reflexivity |].
  split; [simpl in Lc; in_cases Lc; rewrite <- Lc; split; reflexivity |].
  split; [in_cases Lv; rewrite <- Lv; split; reflexivity |].
  split; [in_cases Lw; rewrite <- Lw; split; reflexivity |].
  in_cases Lf; rewrite <- Lf; split; reflexivity.
Qed.

Lemma breakdown_within_weights_witness :
  exists r,
    calculateOrderPriority (host := bangkok_host) new urgent_order = Return r /\
    ((0 <=? Breakdown.temperature (ScoredOrder.breakdown r)) = true /\
     (Breakdown.temperature (ScoredOrder.breakdown r) <=? 30) = true) /\
    ((0 <=? Breakdown.expiration (ScoredOrder.breakdown r)) = true /\
     (Breakdown.expiration (ScoredOrder.breakdown r) <=? 25) = true) /\
    ((0 <=? Breakdown.customer_priority (ScoredOrder.breakdown r)) = true /\
     (Breakdown.customer_priority (ScoredOrder.breakdown r) <=? 15) = true) /\
    ((0 <=? Breakdown.value (ScoredOrder.breakdown r)) = true /\
     (Breakdown.value (ScoredOrder.breakdown r) <=? 10) = true) /\
    ((0 <=? Breakdown.delivery_window (ScoredOrder.breakdown r)) = true /\
     (Breakdown.delivery_window (ScoredOrder.breakdown r) <=? 15) = true) /\
    ((0 <=? Breakdown.fragility (ScoredOrder.breakdown r)) = true /\
     (Breakdown.fragility (ScoredOrder.breakdown r) <=? 5) = true).
Proof.
  apply (breakdown_within_weights (host := bangkok_host) urgent_order);
    [reflexivity | discriminate | reflexivity].
Defined.
